(** * muxer: a verification development for the HTTP request router

    The development embeds the router of package [muxer] (router.go, route.go,
    options.go) in Rocq and proves properties of its dispatch.

    - Module [Regexp] models the part of Go's [regexp] package the router
      calls: compilation of a pattern, [FindStringSubmatch] and
      [ReplaceAllStringFunc], for a fragment of the RE2 syntax.
    - Module [Muxer] is the router as it serves: the request with its
      context, the response recorder, [http.Error], [http.NotFound] and
      [http.MaxBytesReader] as the router calls them, then [Route],
      [Route.match], [Router], [ServeHTTP], [Params].
    - Module [Recovery] is the recovery handler of package [middleware].
    - Module [Template] reads templates as the documentation describes them.
    - Module [Store] is the router as it is configured: routers live in a heap
      and are reached through pointers, middleware lists are Go slices over
      backing arrays; [NewRouter], [Subrouter], [HandleRoute], [Use].

    Go strings are Rocq strings; the text handled here is ASCII, where a byte
    and a rune coincide. *)

From Stdlib Require Import Ascii String ZArith Lia Bool.
From stdpp Require Import base option list gmap strings.

Set Warnings "-register-all".

Local Open Scope Z_scope.
Local Open Scope nat_scope.

(** ** Outcomes of code that can panic *)

(** What a call does: it returns, it panics, or it does something this
    development has no model of (a pattern in syntax the model of [regexp]
    does not read); nothing is then said about the code. *)
Inductive result (A : Type) : Type :=
| Ok (a : A)
| Panic (msg : string)
| NotModelled (what : string).
Arguments Ok {A} a.
Arguments Panic {A} msg.
Arguments NotModelled {A} what.

#[global] Instance result_ret : MRet result := fun A a => Ok a.

#[global] Instance result_bind : MBind result := fun A B f x =>
  match x with
  | Ok a => f a
  | Panic m => Panic m
  | NotModelled m => NotModelled m
  end.

(** ** Package strings *)

Module Strings.

(** [strings.HasPrefix(s, prefix)] *)
Definition HasPrefix (s prefix : string) : bool := String.prefix prefix s.

Fixpoint drop_string (n : nat) (s : string) : string :=
  match n, s with
  | S n', String _ s' => drop_string n' s'
  | _, _ => s
  end.

(** [strings.TrimPrefix(s, prefix)] *)
Definition TrimPrefix (s prefix : string) : string :=
  if HasPrefix s prefix then drop_string (String.length prefix) s else s.

End Strings.

(** ** Package regexp, for a fragment of the syntax

    The fragment: literal characters, [.], [^], [$], character classes
    [[...]] with ranges, negation and the Perl classes, the escapes
    [\w \d \s \W \D \S] and escaped punctuation, capturing groups, [|], and
    the greedy operators [* + ?] over an operand that cannot match the empty
    string.  A pattern outside the fragment is reported as [Unmodelled]; a
    pattern Go rejects is [Malformed].  Matching is Go's leftmost-first
    (backtracking order) semantics. *)

Module Regexp.

Inductive citem : Type :=
| CChar (c : ascii)
| CRange (lo hi : ascii)
| CWord | CDigit | CSpace
| CNotWord | CNotDigit | CNotSpace.

Inductive regex : Type :=
| Empty
| Char (c : ascii)
| Any
| Class (neg : bool) (items : list citem)
| Begin
| End
| Cat (a b : regex)
| Alt (a b : regex)
| Star (a : regex)
| Plus (a : regex)
| Quest (a : regex)
| Group (i : nat) (a : regex).

Definition code (c : ascii) : nat := nat_of_ascii c.

Definition between (lo hi : nat) (c : ascii) : bool :=
  (lo <=? code c) && (code c <=? hi).

Definition is_digit (c : ascii) : bool := between 48 57 c.
Definition is_upper (c : ascii) : bool := between 65 90 c.
Definition is_lower (c : ascii) : bool := between 97 122 c.
Definition is_alnum (c : ascii) : bool := is_digit c || is_upper c || is_lower c.
(** [\w] is [[0-9A-Za-z_]] *)
Definition is_word (c : ascii) : bool := is_alnum c || (code c =? 95).
(** [\s] is [[\t\n\f\r ]] *)
Definition is_space (c : ascii) : bool :=
  (code c =? 9) || (code c =? 10) || (code c =? 12) || (code c =? 13) || (code c =? 32).

Definition in_item (c : ascii) (it : citem) : bool :=
  match it with
  | CChar x => Ascii.eqb c x
  | CRange lo hi => between (code lo) (code hi) c
  | CWord => is_word c
  | CDigit => is_digit c
  | CSpace => is_space c
  | CNotWord => negb (is_word c)
  | CNotDigit => negb (is_digit c)
  | CNotSpace => negb (is_space c)
  end.

Definition in_class (neg : bool) (items : list citem) (c : ascii) : bool :=
  xorb neg (existsb (in_item c) items).

Fixpoint nullable (r : regex) : bool :=
  match r with
  | Empty | Begin | End | Star _ | Quest _ => true
  | Char _ | Any | Class _ _ => false
  | Cat a b => nullable a && nullable b
  | Alt a b => nullable a || nullable b
  | Plus a => nullable a
  | Group _ a => nullable a
  end.

(** *** Matching *)

(** Submatches found so far, by group number, as the bounds of the text
    they cover; entry 0 is the whole match. *)
Abbreviation caps := (list (option (nat * nat))).

(** A continuation receives the position reached, the text left and the
    submatches. *)
Definition cont : Type := nat -> list ascii -> caps -> option caps.

(** Greedy repetition of [step]: one more round first, the rest of the
    pattern otherwise. *)
Fixpoint iterate (step : nat -> list ascii -> caps -> cont -> option caps)
         (fuel : nat) (pos : nat) (s : list ascii) (c : caps) (k : cont)
  : option caps :=
  match fuel with
  | O => k pos s c
  | S n =>
      match step pos s c (fun pos' s' c' => iterate step n pos' s' c' k) with
      | Some r => Some r
      | None => k pos s c
      end
  end.

Fixpoint run (r : regex) (pos : nat) (s : list ascii) (c : caps) (k : cont)
  {struct r} : option caps :=
  match r with
  | Empty => k pos s c
  | Char a =>
      match s with
      | x :: s' => if Ascii.eqb x a then k (S pos) s' c else None
      | [] => None
      end
  | Any =>
      match s with
      | x :: s' => if code x =? 10 then None else k (S pos) s' c
      | [] => None
      end
  | Class neg items =>
      match s with
      | x :: s' => if in_class neg items x then k (S pos) s' c else None
      | [] => None
      end
  | Begin => if pos =? 0 then k pos s c else None
  | End => match s with [] => k pos s c | _ :: _ => None end
  | Cat a b => run a pos s c (fun pos' s' c' => run b pos' s' c' k)
  | Alt a b =>
      match run a pos s c k with
      | Some r => Some r
      | None => run b pos s c k
      end
  | Quest a =>
      match run a pos s c k with
      | Some r => Some r
      | None => k pos s c
      end
  | Star a => iterate (run a) (S (length s)) pos s c k
  | Plus a =>
      run a pos s c (fun pos' s' c' => iterate (run a) (S (length s')) pos' s' c' k)
  | Group i a =>
      run a pos s c
          (fun pos' s' c' => k pos' s' (<[i := Some (pos, pos')]> c'))
  end.

(** A compiled pattern: the program, the number of capturing groups and the
    source text ([String()]). *)
Record Regexp : Type := mkRegexp {
  prog : regex;
  NumSubexp : nat;
  source : string;
}.

(** One attempt at position [pos]. *)
Definition match_at (re : Regexp) (pos : nat) (s : list ascii) : option caps :=
  run (prog re) pos s (replicate (S (NumSubexp re)) None)
      (fun pos' _ c' => Some (<[0 := Some (pos, pos')]> c')).

(** The leftmost match at or after [pos], [s] being the text from [pos] on. *)
Fixpoint find_from (re : Regexp) (pos : nat) (s : list ascii) : option caps :=
  match match_at re pos s with
  | Some c => Some c
  | None =>
      match s with
      | [] => None
      | _ :: s' => find_from re (S pos) s'
      end
  end.

(** [s[a:b]] *)
Definition slice (a b : nat) (s : list ascii) : list ascii :=
  take (b - a) (drop a s).

Definition group_text (s : list ascii) (g : option (nat * nat)) : string :=
  match g with
  | Some (a, b) => string_of_list_ascii (slice a b s)
  | None => EmptyString
  end.

(** [re.FindStringSubmatch(s)]: [None] is the nil slice; a group that took
    no part in the match gives the empty string. *)
Definition FindStringSubmatch (re : Regexp) (s : string) : option (list string) :=
  let t := list_ascii_of_string s in
  match find_from re 0 t with
  | Some c => Some (map (group_text t) c)
  | None => None
  end.

(** *** Compilation *)

Inductive reject : Type :=
| Malformed     (* Go's parser reports an error *)
| Unmodelled.   (* syntax outside the fragment *)

Inductive parsed (A : Type) : Type :=
| Parsed (a : A)
| Rejected (why : reject).
Arguments Parsed {A} a.
Arguments Rejected {A} why.

#[local] Instance parsed_ret : MRet parsed := fun A a => Parsed a.
#[local] Instance parsed_bind : MBind parsed := fun A B f x =>
  match x with
  | Parsed a => f a
  | Rejected w => Rejected w
  end.

Definition ch (c x : ascii) : bool := Ascii.eqb c x.

(** Punctuation may be escaped to stand for itself. *)
Definition is_punct (c : ascii) : bool := (code c <? 128) && negb (is_alnum c).

Definition perl_class (c : ascii) : option citem :=
  if ch c "w" then Some CWord
  else if ch c "d" then Some CDigit
  else if ch c "s" then Some CSpace
  else if ch c "W" then Some CNotWord
  else if ch c "D" then Some CNotDigit
  else if ch c "S" then Some CNotSpace
  else None.

(** One character of a class, as an end of a range. *)
Definition class_char (s : list ascii) : parsed (ascii * list ascii) :=
  match s with
  | [] => Rejected Malformed
  | c :: rest =>
      if ch c "\" then
        match rest with
        | [] => Rejected Malformed
        | e :: rest' =>
            if is_punct e then Parsed (e, rest')
            else if bool_decide (is_Some (perl_class e)) then Rejected Malformed
            else Rejected Unmodelled
        end
      else if code c <? 128 then Parsed (c, rest)
      else Rejected Unmodelled
  end.

(** The items of a class up to its closing bracket. *)
Fixpoint parse_class (fuel : nat) (s : list ascii) (acc : list citem)
  : parsed (list citem * list ascii) :=
  match fuel with
  | O => Rejected Unmodelled
  | S n =>
      match s with
      | [] => Rejected Malformed
      | c :: rest =>
          if ch c "]" then Parsed (rev acc, rest)
          else if ch c "[" && match rest with d :: _ => ch d ":" | [] => false end
          then Rejected Unmodelled
          else
            match (if ch c "\" then
                     match rest with e :: _ => perl_class e | [] => None end
                   else None) with
            | Some it => parse_class n (tail rest) (it :: acc)
            | None =>
                '(lo, t) ← class_char s;
                match t with
                | d :: h :: _ =>
                    if ch d "-" && negb (ch h "]") then
                      '(hi, t') ← class_char (tail t);
                      if code hi <? code lo then Rejected Malformed
                      else parse_class n t' (CRange lo hi :: acc)
                    else parse_class n t (CChar lo :: acc)
                | _ => parse_class n t (CChar lo :: acc)
                end
            end
      end
  end.

Inductive entry : Type := EAlt | ECat | ERep.

Definition is_repeat (c : ascii) : bool := ch c "*" || ch c "+" || ch c "?".

(** A repetition operator after the operand [a], if there is one. *)
Definition postfix (a : regex) (s : list ascii) : parsed (regex * list ascii) :=
  match s with
  | op :: rest =>
      if is_repeat op then
        match rest with
        | q :: _ =>
            if ch q "?" then Rejected Unmodelled
            else if is_repeat q then Rejected Malformed
            else if nullable a then Rejected Unmodelled
            else Parsed (if ch op "*" then Star a
                         else if ch op "+" then Plus a else Quest a, rest)
        | [] =>
            if nullable a then Rejected Unmodelled
            else Parsed (if ch op "*" then Star a
                         else if ch op "+" then Plus a else Quest a, rest)
        end
      else Parsed (a, s)
  | [] => Parsed (a, s)
  end.

(** Recursive descent: alternation, concatenation, repetition of one
    operand.  [g] counts the capturing groups opened so far. *)
Fixpoint parse (fuel : nat) (e : entry) (s : list ascii) (g : nat)
  : parsed (regex * list ascii * nat) :=
  match fuel with
  | O => Rejected Unmodelled
  | S n =>
      match e with
      | EAlt =>
          '(a, rest, g1) ← parse n ECat s g;
          match rest with
          | c :: rest' =>
              if ch c "|" then
                '(b, rest2, g2) ← parse n EAlt rest' g1;
                mret (Alt a b, rest2, g2)
              else mret (a, rest, g1)
          | [] => mret (a, rest, g1)
          end
      | ECat =>
          match s with
          | [] => mret (Empty, s, g)
          | c :: _ =>
              if ch c "|" || ch c ")" then mret (Empty, s, g)
              else
                '(a, rest, g1) ← parse n ERep s g;
                '(b, rest2, g2) ← parse n ECat rest g1;
                mret (Cat a b, rest2, g2)
          end
      | ERep =>
          match s with
          | [] => Rejected Malformed
          | c :: rest =>
              if ch c "(" then
                match rest with
                | q :: _ =>
                    if ch q "?" then Rejected Unmodelled
                    else
                      '(a, rest1, g1) ← parse n EAlt rest (S g);
                      match rest1 with
                      | d :: rest2 =>
                          if ch d ")" then
                            '(r, rest3) ← postfix (Group (S g) a) rest2;
                            mret (r, rest3, g1)
                          else Rejected Malformed
                      | [] => Rejected Malformed
                      end
                | [] => Rejected Malformed
                end
              else if ch c "[" then
                let '(neg, body) :=
                  match rest with
                  | q :: rest' => if ch q "^" then (true, rest') else (false, rest)
                  | [] => (false, rest)
                  end in
                match body with
                | q :: _ =>
                    if ch q "]" then Rejected Unmodelled
                    else
                      '(items, rest1) ← parse_class (S (length body)) body [];
                      '(r, rest2) ← postfix (Class neg items) rest1;
                      mret (r, rest2, g)
                | [] => Rejected Malformed
                end
              else if ch c "\" then
                match rest with
                | e :: rest1 =>
                    match perl_class e with
                    | Some it =>
                        '(r, rest2) ← postfix (Class false [it]) rest1;
                        mret (r, rest2, g)
                    | None =>
                        if is_punct e then
                          '(r, rest2) ← postfix (Char e) rest1;
                          mret (r, rest2, g)
                        else Rejected Unmodelled
                    end
                | [] => Rejected Malformed
                end
              else if is_repeat c || ch c ")" || ch c "|" then Rejected Malformed
              else if ch c "{" || ch c "}" || ch c "]" then Rejected Unmodelled
              else if negb (code c <? 128) then Rejected Unmodelled
              else
                '(r, rest1) ←
                  postfix (if ch c "." then Any
                           else if ch c "^" then Begin
                           else if ch c "$" then End
                           else Char c) rest;
                mret (r, rest1, g)
          end
      end
  end.

(** [regexp.Compile(expr)] *)
Definition Compile (expr : string) : parsed Regexp :=
  let s := list_ascii_of_string expr in
  '(r, rest, g) ← parse (3 * length s + 4) EAlt s 0;
  match rest with
  | [] => Parsed (mkRegexp r g expr)
  | _ :: _ => Rejected Malformed
  end.

(** [regexp.MustCompile(expr)]: panics where [Compile] reports an error.  For
    a pattern outside the fragment the model says nothing: Go compiles some of
    them and rejects others. *)
Definition MustCompile (expr : string) : result Regexp :=
  match Compile expr with
  | Parsed re => Ok re
  | Rejected Malformed => Panic "regexp: Compile: error parsing regexp"
  | Rejected Unmodelled => NotModelled "regexp: syntax outside the fragment"
  end.

(** *** Replacement *)

(** The loop of [ReplaceAllStringFunc]: [last] is the end of the previous
    match, [pos] is where the search resumes, [buf] the output so far; the
    replacement function threads the state [st] its closure updates. *)
Fixpoint replace_loop {St : Type} (fuel : nat) (re : Regexp) (src : list ascii)
         (repl : string -> St -> string * St)
         (last pos : nat) (buf : list ascii) (st : St) : list ascii * St :=
  match fuel with
  | O => (buf ++ drop last src, st)
  | S n =>
      if length src <? pos then (buf ++ drop last src, st)
      else
        match find_from re pos (drop pos src) with
        | Some (Some (a0, a1) :: _) =>
            let buf1 := buf ++ slice last a0 src in
            let '(buf2, st2) :=
              if (last <? a1) || (a0 =? 0) then
                let '(r, st') := repl (string_of_list_ascii (slice a0 a1 src)) st in
                (buf1 ++ list_ascii_of_string r, st')
              else (buf1, st) in
            let pos' := if a1 <? pos + 1 then pos + 1 else a1 in
            replace_loop n re src repl a1 pos' buf2 st2
        | _ => (buf ++ drop last src, st)
        end
  end.

(** [re.ReplaceAllStringFunc(src, repl)] *)
Definition ReplaceAllStringFunc {St : Type} (re : Regexp) (src : string)
           (repl : string -> St -> string * St) (st : St) : string * St :=
  let s := list_ascii_of_string src in
  let '(out, st') := replace_loop (S (length s)) re s repl 0 0 [] st in
  (string_of_list_ascii out, st').

(** A continuation that returns [n] submatches when given [n]. *)
Definition keeps (n : nat) (k : cont) : Prop :=
  forall pos s c res, length c = n -> k pos s c = Some res -> length res = n.

End Regexp.

(** ** The router as it serves requests *)

Module Muxer.
Import Regexp.

(** *** The request and its context *)

(** What the pointer stored under [RouteContextKey] gives access to: the
    fields of the matched [Route].  The handler field is left out, since a
    handler takes a request and a request carries this value. *)
Record RouteRef : Type := mkRouteRef {
  ref_path : Regexp;
  ref_method : string;
  ref_params : list string;
  ref_template : string;
}.

(** Context keys: the package's own type [contextKey], or a key of any other
    type (never equal to a [contextKey]). *)
Inductive key : Type :=
| contextKey (s : string)
| otherKey (s : string).

#[global] Instance key_eq_dec : EqDecision key.
Proof. solve_decision. Defined.

Definition ParamsKey : key := contextKey "params".
Definition RouteContextKey : key := contextKey "matched_route".

(** Context values, by dynamic type. *)
Inductive value : Type :=
| ParamsValue (m : gmap string string)   (* map[string]string *)
| RouteValue (r : RouteRef)              (* *Route *)
| OtherValue (s : string).

(** A context is the chain of its bindings, the latest first. *)
Abbreviation Context := (list (key * value)).

Definition WithValue (ctx : Context) (k : key) (v : value) : Context :=
  (k, v) :: ctx.

Fixpoint Value (ctx : Context) (k : key) : option value :=
  match ctx with
  | [] => None
  | (k', v) :: rest => if decide (k' = k) then Some v else Value rest k
  end.

(** A request body: the bytes the client sends, under the limits
    [http.MaxBytesReader] has put on the stream. *)
Inductive Reader : Type :=
| Bytes (data : string)
| MaxBytesReader (r : Reader) (n : Z).

(** [io.ReadAll]: the bytes read and the error, if any.  A limiting reader
    hands on what the reader below it gives, bytes and error, as long as that
    is no more than [n] bytes (a negative [n] counts as 0); once the reader
    below gives more, it hands on the first [n] bytes and fails. *)
Fixpoint ReadAll (r : Reader) : string * option string :=
  match r with
  | Bytes d => (d, None)
  | MaxBytesReader r' n =>
      let '(d, e) := ReadAll r' in
      let n := Z.max 0 n in
      if (Z.of_nat (String.length d) <=? n)%Z then (d, e)
      else (string_of_list_ascii (take (Z.to_nat n) (list_ascii_of_string d)),
            Some "http: request body too large")
  end.

(** [req.URL]: the host is the one written in the request target, empty when
    the target is a path only, as in an ordinary request to a server. *)
Record URL : Type := mkURL {
  Host : string;
  Path : string;
}.

(** The fields of [http.Request] the router reads or writes, and [req.Host],
    which it does not read: for a request a server receives, the value of the
    Host header (or the host of the target, when the target names one). *)
Record Request : Type := mkRequest {
  Method : string;
  url : URL;
  reqHost : string;            (* [req.Host] *)
  Body : option Reader;        (* [None] is a nil Body *)
  ContentLength : Z;           (* -1 when unknown *)
  ctx : Context;
}.

Definition WithContext (req : Request) (c : Context) : Request :=
  mkRequest (Method req) (url req) (reqHost req) (Body req) (ContentLength req) c.

Definition setBody (req : Request) (b : Reader) : Request :=
  mkRequest (Method req) (url req) (reqHost req) (Some b) (ContentLength req)
            (ctx req).

Definition setPath (req : Request) (p : string) : Request :=
  mkRequest (Method req) (mkURL (Host (url req)) p) (reqHost req) (Body req)
            (ContentLength req) (ctx req).

(** *** The response writer: [httptest.ResponseRecorder]

    The recorder as far as its status and body go.  The response headers are
    left out of the model: nothing below says which headers a response
    carries. *)

Record ResponseWriter : Type := mkWriter {
  Code : Z;
  wroteHeader : bool;
  written : string;
}.

Definition NewRecorder : ResponseWriter := mkWriter 200 false "".

(** [WriteHeader(code)], for a status code from 100 to 999, as all the codes
    written below are. *)
Definition WriteHeader (w : ResponseWriter) (code : Z) : ResponseWriter :=
  if wroteHeader w then w
  else mkWriter code true (written w).

Definition Write (w : ResponseWriter) (b : string) : ResponseWriter :=
  let w' := if wroteHeader w then w else WriteHeader w 200 in
  mkWriter (Code w') (wroteHeader w') (written w' +:+ b).

Definition newline : string := String (ascii_of_nat 10) EmptyString.

(** [http.Error(w, error, code)]: the status and the line it writes. *)
Definition Error (w : ResponseWriter) (error : string) (code : Z) : ResponseWriter :=
  Write (WriteHeader w code) (error +:+ newline).

Definition StatusNotFound : Z := 404.
Definition StatusMethodNotAllowed : Z := 405.
Definition StatusRequestEntityTooLarge : Z := 413.

(** [http.Handler]: what serving a request does to the response writer. *)
Definition Handler : Type := ResponseWriter -> Request -> result ResponseWriter.

Definition Middleware : Type := Handler -> Handler.

(** [http.NotFound] *)
Definition NotFound : Handler :=
  fun w _ => Ok (Error w "404 page not found" StatusNotFound).

(** *** route.go *)

Record Route : Type := mkRoute {
  path : Regexp;
  method : string;
  handler : Handler;
  params : list string;
  template : string;
}.

Definition ref (r : Route) : RouteRef :=
  mkRouteRef (path r) (method r) (params r) (template r).

(** The loop of [Route.match]: [params[name] = match[i+1]]. *)
Fixpoint fill (m : list string) (names : list string) (i : nat)
         (acc : gmap string string) : result (gmap string string) :=
  match names with
  | [] => Ok acc
  | name :: rest =>
      match m !! (i + 1) with
      | Some v => fill m rest (S i) (<[name := v]> acc)
      | None => Panic "runtime error: index out of range"
      end
  end.

(** [Route.match]: [Ok None] is the nil map. *)
Definition Route_match (r : Route) (p : string) : result (option (gmap string string)) :=
  match FindStringSubmatch (path r) p with
  | None => Ok None
  | Some m => ps ← fill m (params r) 0 ∅; Ok (Some ps)
  end.

(** [Route.PathTemplate], on a possibly nil route: the string and the error. *)
Definition PathTemplate (r : option RouteRef) : string * option string :=
  match r with
  | None => ("", Some "route is nil, no template")
  | Some r =>
      if String.eqb (ref_template r) "" then (ref_template r, Some "template is empty")
      else (ref_template r, None)
  end.

(** *** router.go, serving *)

(** The configuration [ServeHTTP] reads.  [subrouters] is the Go map as the
    sequence of its entries in the order the range loop visits them, which
    Go leaves unspecified: statements quantify over every order. *)
Inductive Router : Type := mkRouter {
  routes : list Route;
  middleware : list Middleware;
  subrouters : list (string * Router);
  NotFoundHandler : Handler;
  MaxRequestBodySize : Z;
}.

(** Lines 175-182: [None] when the request is turned away with 413. *)
Definition limitBody (max : Z) (req : Request) : option Request :=
  if (0 <? max)%Z then
    match Body req with
    | Some b =>
        if (ContentLength req <=? max)%Z then Some (setBody req (MaxBytesReader b max))
        else None
    | None => Some req
    end
  else Some req.

(** Lines 187-193: whether the child keyed [prefix] takes the request, and the
    request it then gets. *)
Definition claims (prefix : string) (req : Request) : option Request :=
  if String.eqb prefix (Host (url req)) then Some req
  else if Strings.HasPrefix (Path (url req)) prefix
       then Some (setPath req (Strings.TrimPrefix (Path (url req)) prefix))
       else None.

(** Lines 201-223, the scan of the route table. *)
Inductive scanned : Type :=
| Selected (rt : Route) (ps : gmap string string)
| Unmatched (methodMismatch : bool).

Fixpoint scan (rs : list Route) (m p : string) (methodMismatch : bool)
  : result scanned :=
  match rs with
  | [] => Ok (Unmatched methodMismatch)
  | rt :: rest =>
      if negb (String.eqb (method rt) m) then scan rest m p true
      else
        ps ← Route_match rt p;
        match ps with
        | None => scan rest m p methodMismatch
        | Some ps => Ok (Selected rt ps)
        end
  end.

(** The scan goes past [r]: another method, or no match of the path. *)
Definition passes (m p : string) (r : Route) : Prop :=
  method r <> m \/ Route_match r p = Ok None.

(** Lines 216-219: [for i := len(mw) - 1; i >= 0; i--], with [n] entries
    still to go. *)
Fixpoint wrap_from (mw : list Middleware) (n : nat) (h : Handler) : Handler :=
  match n with
  | O => h
  | S i =>
      match mw !! i with
      | Some m => wrap_from mw i (m h)
      | None => wrap_from mw i h
      end
  end.

Definition wrap (mw : list Middleware) (h : Handler) : Handler :=
  wrap_from mw (length mw) h.

(** Lines 212-214: the request the selected handler sees. *)
Definition attach (req : Request) (rt : Route) (ps : gmap string string) : Request :=
  WithContext req
    (WithValue (WithValue (ctx req) ParamsKey (ParamsValue ps))
               RouteContextKey (RouteValue (ref rt))).

(** Lines 201-230. *)
Definition serveRoutes (rs : list Route) (mw : list Middleware) (nf : Handler)
           (w : ResponseWriter) (req : Request) : result ResponseWriter :=
  sc ← scan rs (Method req) (Path (url req)) false;
  match sc with
  | Selected rt ps => wrap mw (handler rt) w (attach req rt ps)
  | Unmatched true => Ok (Error w "Method not allowed" StatusMethodNotAllowed)
  | Unmatched false => nf w req
  end.

(** Lines 185-199: the children are probed in turn; the first that claims
    the request serves it, and [fallback] runs when none does. *)
Fixpoint probe {R : Type} (serve : R -> Handler) (fallback : Handler)
         (l : list (string * R)) (w : ResponseWriter) (req : Request)
  : result ResponseWriter :=
  match l with
  | [] => fallback w req
  | (prefix, sub) :: rest =>
      match claims prefix req with
      | Some req' => serve sub w req'
      | None => probe serve fallback rest w req
      end
  end.

(** [Router.ServeHTTP] *)
Fixpoint ServeHTTP (r : Router) (w : ResponseWriter) (req : Request)
  {struct r} : result ResponseWriter :=
  match r with
  | mkRouter rs mw subs nf max =>
      match limitBody max req with
      | None => Ok (Error w "Request body too large" StatusRequestEntityTooLarge)
      | Some req1 => probe ServeHTTP (serveRoutes rs mw nf) subs w req1
      end
  end.

(** [Params] *)
Definition Params (req : Request) : gmap string string :=
  match Value (ctx req) ParamsKey with
  | Some (ParamsValue p) => p
  | _ => ∅
  end.

(** [CurrentRoute]: [None] is nil. *)
Definition CurrentRoute (req : Request) : result (option RouteRef) :=
  match Value (ctx req) RouteContextKey with
  | None => Ok None
  | Some (RouteValue r) => Ok (Some r)
  | Some _ => Panic "interface conversion"
  end.

(** Lines 133-142 of [HandleRoute]: the pattern text and the names. *)
Definition paramPattern : string := ":([\w-]+)".
Definition paramGroup : string := "([-\w.]+)".

Definition compileTemplate (tpl : string) : result (Regexp * list string) :=
  re ← MustCompile paramPattern;
  let '(pathRegex, paramNames) :=
    ReplaceAllStringFunc re tpl
      (fun m names => (paramGroup, names ++ [Strings.drop_string 1 m])) [] in
  exactPath ← MustCompile ("^" +:+ pathRegex +:+ "$");
  Ok (exactPath, paramNames).

(** The [Route] that [HandleRoute] appends. *)
Definition newRoute (m tpl : string) (h : Handler) : result Route :=
  '(exactPath, paramNames) ← compileTemplate tpl;
  Ok (mkRoute exactPath m h paramNames tpl).

(** *** Configurations whose handlers return *)

(** A handler that returns whatever it is given. *)
Definition total (h : Handler) : Prop :=
  forall w req, exists w', h w req = Ok w'.

(** A route with a submatch for each of its names and a handler that returns. *)
Definition route_ok (rt : Route) : Prop :=
  length (params rt) <= NumSubexp (path rt) /\ total (handler rt).

(** A router, and its children in turn, with such routes, a not-found
    handler that returns, and middleware that keeps handlers returning. *)
Fixpoint router_ok (r : Router) : Prop :=
  match r with
  | mkRouter rs mw subs nf _ =>
      Forall route_ok rs
      /\ Forall (fun m : Middleware => forall h, total h -> total (m h)) mw
      /\ total nf
      /\ (fix all (l : list (string * Router)) : Prop :=
            match l with
            | [] => True
            | (_, c) :: l' => router_ok c /\ all l'
            end) subs
  end.

End Muxer.

(** ** Package middleware: the recovery handler

    A handler that panics leaves the response writer as it was when it
    panicked, and the recovery handler goes on from there: here a handler
    gives the writer it leaves together with the value of its panic, if
    any, and threads what has been logged. *)

Module Recovery.
Import Muxer.

(** A value of type [interface{}], as [panic] takes one and [Println] prints
    them: a string, or a value of another type, given by the text it is
    printed as.  The values are not nil. *)
Inductive any : Type :=
| AnyString (s : string)
| AnyOther (text : string).

Definition text_of (v : any) : string :=
  match v with
  | AnyString s => s
  | AnyOther t => t
  end.

(** What serving leaves: the response writer, and the value the handler
    panicked with, if it did. *)
Record served : Type := mkServed {
  writer : ResponseWriter;
  panicValue : option any;
}.

Definition StatusInternalServerError : Z := 500.

Section Logger.

(** What a [RecoveryLogger] keeps of the values printed to it. *)
Variable L : Type.

(** The method [Println] of a [RecoveryLogger]: given the values and what the
    logger holds, what it holds afterwards, and the value it panics with if
    it does.  The caller supplies the method, which may do anything. *)
Definition Println : Type := list any -> L -> L * option any.

(** What has been printed: to the [RecoveryLogger], and through package
    [log], line by line. *)
Record logs : Type := mkLogs {
  ownLog : L;
  standardLog : list string;
}.

Definition LoggingHandler : Type := ResponseWriter -> Request -> logs -> served * logs.

(** [rh.logger.Println(v...)] when a logger was given ([None] is the nil
    logger), [log.Println(v[0])] otherwise, which returns. *)
Definition print (logger : option Println) (v : list any) (lg : logs)
  : logs * option any :=
  match logger with
  | Some println =>
      let '(own, p) := println v (ownLog lg) in (mkLogs own (standardLog lg), p)
  | None =>
      (match v with
       | x :: _ => mkLogs (ownLog lg) (standardLog lg ++ [text_of x])
       | [] => lg
       end, None)
  end.

(** [recoveryHandler.log(v...)]; [stack] is what [debug.Stack()] returns.  A
    panic of the first [Println] ends the call. *)
Definition log (logger : option Println) (printStack : bool) (stack : string)
           (v : list any) (lg : logs) : logs * option any :=
  let '(lg1, p) := print logger v lg in
  match p with
  | Some _ => (lg1, p)
  | None => if printStack then print logger [AnyString stack] lg1 else (lg1, None)
  end.

(** [RecoveryHandler(logger, printStack)(next)], and its [ServeHTTP]: the
    deferred function runs when [next] has panicked; it writes the status
    and logs the value recovered, and a panic of the logger leaves it. *)
Definition RecoveryHandler (logger : option Println) (printStack : bool)
           (stack : string) (next : LoggingHandler) : LoggingHandler :=
  fun w r lg =>
    let '(s, lg1) := next w r lg in
    match panicValue s with
    | Some err =>
        let w1 := WriteHeader (writer s) StatusInternalServerError in
        let '(lg2, p) := log logger printStack stack [err] lg1 in
        (mkServed w1 p, lg2)
    | None => (s, lg1)
    end.

(** A handler that writes [body] and then panics with [err]. *)
Definition writeThenPanic (body : string) (err : any) : LoggingHandler :=
  fun w _ lg => (mkServed (Write w body) (Some err), lg).

End Logger.

Arguments mkLogs {L} ownLog standardLog.
Arguments ownLog {L} l.
Arguments standardLog {L} l.
Arguments print {L} logger v lg.
Arguments log {L} logger printStack stack v lg.
Arguments RecoveryHandler {L} logger printStack stack next.
Arguments writeThenPanic {L} body err.

(** The logger of TestRecoveryHandler: each value, asserted to be a string,
    goes to the buffer. *)
Fixpoint mockPrintln (v : list any) (buf : string) : string * option any :=
  match v with
  | [] => (buf, None)
  | AnyString s :: rest => mockPrintln rest (buf +:+ s)
  | AnyOther _ :: _ =>
      (buf, Some (AnyOther "interface conversion: interface {} is not string"))
  end.

End Recovery.

(** ** Templates, as the documentation reads them

    A template is literal text with tokens [:name] in it.  These definitions
    say what [HandleRoute] is documented to do with one; the theorems compare
    them with what its calls to [regexp] compute. *)

Module Template.
Import Regexp Muxer.

(** [[\w-]], the characters of a parameter name, and [[-\w.]], those a
    parameter's value is made of. *)
Definition is_name (c : ascii) : bool := is_word c || ch c "-".
Definition is_value (c : ascii) : bool := ch c "-" || is_word c || ch c ".".

(** A token's name and the literal text between it and the next token. *)
Definition segment : Type := list ascii * list ascii.

(** The longest prefix of name characters, and the rest. *)
Fixpoint span_name (s : list ascii) : segment :=
  match s with
  | c :: t =>
      if is_name c then let '(n, rest) := span_name t in (c :: n, rest)
      else ([], s)
  | [] => ([], [])
  end.

(** Reading a template from its end: a colon before a name character opens a
    token, whose name runs as far as name characters go. *)
Definition token_step (c : ascii) (acc : list ascii * list segment)
  : list ascii * list segment :=
  let '(lit, segs) := acc in
  if ch c ":" && match lit with d :: _ => is_name d | [] => false end
  then ([], span_name lit :: segs)
  else (c :: lit, segs).

(** The literal text before the first token, and the tokens. *)
Definition tokens (tpl : list ascii) : list ascii * list segment :=
  foldr token_step ([], []) tpl.

(** The text with each token written by [token]. *)
Fixpoint render (token : list ascii -> list ascii) (segs : list segment)
  : list ascii :=
  match segs with
  | [] => []
  | (n, l) :: rest => token n ++ l ++ render token rest
  end.

Definition templateText (t : list ascii * list segment) : list ascii :=
  t.1 ++ render (fun n => ":"%char :: n) t.2.

Definition patternText (t : list ascii * list segment) : list ascii :=
  t.1 ++ render (fun _ => list_ascii_of_string paramGroup) t.2.

Definition names (t : list ascii * list segment) : list string :=
  map (fun sg : segment => string_of_list_ascii sg.1) t.2.

(** No colon of [l] stands before a name character. *)
Fixpoint clean (l : list ascii) : bool :=
  match l with
  | c :: t =>
      negb (ch c ":" && match t with d :: _ => is_name d | [] => false end)
      && clean t
  | [] => true
  end.

(** [l] does not go on with a name character. *)
Definition breaks (l : list ascii) : bool :=
  match l with
  | d :: _ => negb (is_name d)
  | [] => true
  end.

Definition wf_segment (sg : segment) : bool :=
  negb (bool_decide (sg.1 = [])) && forallb is_name sg.1
  && breaks sg.2 && clean sg.2.

(** The reading is the one the first pattern of [HandleRoute] finds. *)
Definition wf (t : list ascii * list segment) : bool :=
  clean t.1 && forallb wf_segment t.2.

(** The two patterns of [HandleRoute], compiled. *)
Definition paramRe : Regexp :=
  mkRegexp (Cat (Char ":")
                (Cat (Group 1 (Cat (Plus (Class false [CWord; CChar "-"])) Empty))
                     Empty))
           1 paramPattern.


(** The closure [HandleRoute] passes to [ReplaceAllStringFunc]: it appends
    [m[1:]] to [paramNames] and returns the group. *)
Definition collect (m : string) (paramNames : list string) : string * list string :=
  (paramGroup, paramNames ++ [Strings.drop_string 1 m]).

(** [params[name] = match[i+1]] for the names in turn. *)
Definition zipped (paramNames : list string) (m : list string) : gmap string string :=
  foldl (fun acc nv => <[nv.1 := nv.2]> acc) ∅ (zip paramNames (drop 1 m)).

(** *** Plain templates

    Templates of literal text without pattern syntax, with something other
    than a value character between two tokens: the family the documentation
    and the tests use. *)

(** Characters that stand for themselves in a pattern. *)
Definition plain (c : ascii) : bool :=
  (code c <? 128)
  && negb (ch c "(" || ch c ")" || ch c "[" || ch c "]" || ch c "{" || ch c "}"
           || ch c "\" || ch c "|" || ch c "." || ch c "^" || ch c "$"
           || is_repeat c).

(** The longest prefix of value characters, and the rest. *)
Fixpoint span_value (s : list ascii) : list ascii * list ascii :=
  match s with
  | c :: t =>
      if is_value c then let '(v, rest) := span_value t in (c :: v, rest)
      else ([], s)
  | [] => ([], [])
  end.

(** [s] without its prefix [l]. *)
Fixpoint strip (l s : list ascii) : option (list ascii) :=
  match l, s with
  | [], _ => Some s
  | c :: l', d :: s' => if Ascii.eqb d c then strip l' s' else None
  | _ :: _, [] => None
  end.

(** The values of the tokens in a path that reads as the template does: each
    the longest run of value characters, followed by the literal text. *)
Fixpoint values (segs : list segment) (s : list ascii) : option (list (list ascii)) :=
  match segs with
  | [] => match s with [] => Some [] | _ :: _ => None end
  | (_, l) :: rest =>
      match span_value s with
      | ([], _) => None
      | (v, s1) => s2 ← strip l s1; vs ← values rest s2; Some (v :: vs)
      end
  end.

Definition path_values (t : list ascii * list segment) (p : list ascii)
  : option (list (list ascii)) :=
  s ← strip t.1 p; values t.2 s.

(** Literal text of plain characters, the text after a token starting with
    a character no value holds, and empty only after the last token. *)
Fixpoint plain_segments (segs : list segment) : bool :=
  match segs with
  | [] => true
  | (_, l) :: rest =>
      forallb plain l
      && match l with
         | d :: _ => negb (is_value d)
         | [] => bool_decide (rest = [])
         end
      && plain_segments rest
  end.

Definition plain_reading (t : list ascii * list segment) : bool :=
  wf t && forallb plain t.1 && plain_segments t.2.

(** The program a plain reading compiles to. *)
Definition lits (l : list ascii) (b : regex) : regex :=
  foldr (fun c b => Cat (Char c) b) b l.

Definition groupAt (i : nat) : regex :=
  Group i (Cat (Plus (Class false [CChar "-"; CWord; CChar "."])) Empty).

Fixpoint segments_regex (i : nat) (segs : list segment) : regex :=
  match segs with
  | [] => Cat End Empty
  | (_, l) :: rest => Cat (groupAt (S i)) (lits l (segments_regex (S i) rest))
  end.

Definition reading_regex (t : list ascii * list segment) : regex :=
  Cat Begin (lits t.1 (segments_regex 0 t.2)).

(** The bounds of the values, [s] being the path from position [pos] on. *)
Fixpoint bounds (segs : list segment) (pos : nat) (s : list ascii)
  : option (list (nat * nat)) :=
  match segs with
  | [] => match s with [] => Some [] | _ :: _ => None end
  | (_, l) :: rest =>
      match span_value s with
      | ([], _) => None
      | (v, s1) =>
          s2 ← strip l s1;
          bs ← bounds rest (pos + length v + length l) s2;
          Some ((pos, pos + length v) :: bs)
      end
  end.

(** The template with each token replaced by a value. *)
Fixpoint instantiate (segs : list segment) (vs : list (list ascii)) : list ascii :=
  match segs, vs with
  | (_, l) :: rest, v :: vs' => v ++ l ++ instantiate rest vs'
  | _, _ => []
  end.

(** The rest of the pattern refuses a text that goes on with a value
    character. *)
Definition rejects (b : regex) (k : cont) : Prop :=
  forall pos d s c, is_value d = true -> run b pos (d :: s) c k = None.

(** What may follow an operand: no repetition operator. *)
Definition no_repeat (s : list ascii) : Prop :=
  match s with
  | d :: _ => is_repeat d = false
  | [] => True
  end.

End Template.

(** ** The router as it is configured

    Routers are reached through pointers ([*Router]) and a middleware list is
    a Go slice: a window on a backing array that [append] may write in place
    or replace by a fresh, larger one. *)

Module Store.
Import Muxer.

Abbreviation loc := nat.

(** A slice header. *)
Record slice : Type := mkSlice {
  ptr : option loc;
  len : nat;
  cap : nat;
}.

(** The nil slice, and [[]T{}]: no element, no capacity. *)
Definition emptySlice : slice := mkSlice None 0 0.

(** The [Router] struct; the route table is kept as the list it holds. *)
Record RouterObj : Type := mkObj {
  o_routes : list Route;
  o_middleware : slice;
  o_subrouters : gmap string loc;
  o_NotFoundHandler : Handler;
  o_MaxRequestBodySize : Z;
}.

(** The heap: router structs, backing arrays (a cell is [None] while it holds
    the nil function), and the next free address. *)
Record heap : Type := mkHeap {
  routers : gmap loc RouterObj;
  arrays : gmap loc (list (option Middleware));
  next : loc;
}.

Definition emptyHeap : heap := mkHeap ∅ ∅ 0.

Definition cells (h : heap) (s : slice) : list (option Middleware) :=
  match ptr s with
  | Some l => default [] (arrays h !! l)
  | None => []
  end.

(** The elements seen through a slice. *)
Definition elems (h : heap) (s : slice) : list Middleware :=
  omap id (take (len s) (cells h s)).

Definition setRouter (h : heap) (r : loc) (o : RouterObj) : heap :=
  mkHeap (<[r := o]> (routers h)) (arrays h) (next h).

Definition nilPointer {A : Type} : result A :=
  Panic "runtime error: invalid memory address or nil pointer dereference".

Section Append.

(** The capacity the runtime proposes when an array of capacity [c] must
    grow to hold [n] elements; whatever it proposes, the new array holds
    at least [n]. *)
Variable grow : nat -> nat -> nat.

(** [append(s, xs...)] *)
Definition append (h : heap) (s : slice) (xs : list Middleware) : heap * slice :=
  match xs with
  | [] => (h, s)
  | _ :: _ =>
      let n := len s + length xs in
      if n <=? cap s then
        match ptr s with
        | Some l =>
            (mkHeap (routers h)
                    (<[l := take (len s) (cells h s) ++ (Some <$> xs)
                              ++ drop n (cells h s)]> (arrays h))
                    (next h),
             mkSlice (Some l) n (cap s))
        | None => (h, s)
        end
      else
        let c := Nat.max n (grow (cap s) n) in
        let l := next h in
        (mkHeap (routers h)
                (<[l := take (len s) (cells h s) ++ (Some <$> xs)
                          ++ replicate (c - n) None]> (arrays h))
                (S l),
         mkSlice (Some l) n c)
  end.

(** [Router.Use] *)
Definition Use (h : heap) (r : loc) (mws : list Middleware) : result heap :=
  match routers h !! r with
  | None => nilPointer
  | Some o =>
      let '(h1, s) := append h (o_middleware o) mws in
      Ok (setRouter h1 r
            (mkObj (o_routes o) s (o_subrouters o) (o_NotFoundHandler o)
                   (o_MaxRequestBodySize o)))
  end.

(** [Router.Subrouter]: the heap and the child returned. *)
Definition Subrouter (h : heap) (r : loc) (attrValue : string) : result (heap * loc) :=
  match routers h !! r with
  | None => nilPointer
  | Some o =>
      match o_subrouters o !! attrValue with
      | Some c => Ok (h, c)
      | None =>
          let '(h1, s) := append h emptySlice (elems h (o_middleware o)) in
          let c := next h1 in
          let sub := mkObj [] s ∅ (o_NotFoundHandler o) 0%Z in
          let h2 := mkHeap (<[c := sub]> (routers h1)) (arrays h1) (S c) in
          Ok (setRouter h2 r
                (mkObj (o_routes o) (o_middleware o)
                       (<[attrValue := c]> (o_subrouters o))
                       (o_NotFoundHandler o) (o_MaxRequestBodySize o)),
              c)
      end
  end.

End Append.

(** [r.NotFoundHandler = f], the field being exported. *)
Definition setNotFoundHandler (h : heap) (r : loc) (f : Handler) : result heap :=
  match routers h !! r with
  | None => nilPointer
  | Some o =>
      Ok (setRouter h r
            (mkObj (o_routes o) (o_middleware o) (o_subrouters o) f
                   (o_MaxRequestBodySize o)))
  end.

(** [Router.HandleRoute] *)
Definition HandleRoute (h : heap) (r : loc) (m tpl : string) (f : Handler)
  : result heap :=
  rt ← newRoute m tpl f;
  match routers h !! r with
  | None => nilPointer
  | Some o =>
      Ok (setRouter h r
            (mkObj (o_routes o ++ [rt]) (o_middleware o) (o_subrouters o)
                   (o_NotFoundHandler o) (o_MaxRequestBodySize o)))
  end.

(** [Router.HandlerFunc] *)
Definition HandlerFunc (h : heap) (r : loc) (m tpl : string) (f : Handler)
  : result heap :=
  HandleRoute h r m tpl f.

(** [Router.Handle]: the handler is wrapped in a function that calls it. *)
Definition Handle (h : heap) (r : loc) (m tpl : string) (f : Handler)
  : result heap :=
  HandlerFunc h r m tpl (fun w req => f w req).

(** [Router.HandlerFuncWithMethods] *)
Fixpoint HandlerFuncWithMethods (h : heap) (r : loc) (methods : list string)
         (tpl : string) (f : Handler) : result heap :=
  match methods with
  | [] => Ok h
  | m :: rest =>
      h1 ← HandlerFunc h r m tpl f;
      HandlerFuncWithMethods h1 r rest tpl f
  end.

(** *** options.go *)

(** An [http.Handler] value by its dynamic type: an [http.HandlerFunc], or
    any other implementation of the interface. *)
Inductive handlerValue : Type :=
| IsHandlerFunc (f : Handler)
| IsOther (f : Handler).

Definition RouterOption : Type := loc -> heap -> result heap.

(** [WithNotFoundHandler]: [handler.(http.HandlerFunc)] *)
Definition WithNotFoundHandler (hv : handlerValue) : RouterOption :=
  fun r h =>
    match hv with
    | IsHandlerFunc f => setNotFoundHandler h r f
    | IsOther _ => Panic "interface conversion: http.Handler is not http.HandlerFunc"
    end.

(** [WithMaxRequestBodySize] *)
Definition WithMaxRequestBodySize (size : Z) : RouterOption :=
  fun r h =>
    match routers h !! r with
    | None => nilPointer
    | Some o =>
        Ok (setRouter h r
              (mkObj (o_routes o) (o_middleware o) (o_subrouters o)
                     (o_NotFoundHandler o) size))
    end.

Fixpoint applyOptions (options : list RouterOption) (r : loc) (h : heap)
  : result heap :=
  match options with
  | [] => Ok h
  | option :: rest => h1 ← option r h; applyOptions rest r h1
  end.

(** [NewRouter] *)
Definition NewRouter (h : heap) (options : list RouterOption) : result (heap * loc) :=
  let r := next h in
  let h1 := mkHeap (<[r := mkObj [] emptySlice ∅ NotFound 0%Z]> (routers h))
                   (arrays h) (S r) in
  h2 ← applyOptions options r h1;
  Ok (h2, r).

(** *** Reading the configuration for serving *)

Fixpoint sequence {A : Type} (l : list (option A)) : option (list A) :=
  match l with
  | [] => Some []
  | x :: rest => a ← x; t ← sequence rest; Some (a :: t)
  end.

(** The router at [r] as [ServeHTTP] reads it, children in the order
    [order] lists a map's entries; [fuel] bounds the depth. *)
Fixpoint snapshot (order : gmap string loc -> list (string * loc))
         (fuel : nat) (h : heap) (r : loc) : option Router :=
  match fuel with
  | O => None
  | S n =>
      o ← routers h !! r;
      subs ← sequence ((fun kc => t ← snapshot order n h (snd kc); Some (fst kc, t))
                         <$> order (o_subrouters o));
      Some (mkRouter (o_routes o) (elems h (o_middleware o)) subs
                     (o_NotFoundHandler o) (o_MaxRequestBodySize o))
  end.

(** *** Heaps the API builds, and changes made through one router *)

(** A slice lies within its array, which is allocated. *)
Definition slice_ok (h : heap) (s : slice) : Prop :=
  len s <= cap s /\ cap s <= length (cells h s)
  /\ forall l, ptr s = Some l -> l < next h.

(** Every router is allocated, its middleware slice is in order, no two
    routers share a backing array, and a child is a router allocated after
    its parent. *)
Definition heap_ok (h : heap) : Prop :=
  forall r o,
    routers h !! r = Some o ->
    r < next h /\ slice_ok h (o_middleware o)
    /\ (forall r' o' l,
          r' <> r -> routers h !! r' = Some o' ->
          ptr (o_middleware o) = Some l -> ptr (o_middleware o') <> Some l)
    /\ (forall k c, o_subrouters o !! k = Some c ->
                    r < c /\ is_Some (routers h !! c)).

(** A change of configuration made through one router. *)
Inductive change : Type :=
| DoUse (mws : list Middleware)
| DoNotFound (f : Handler)
| DoHandle (m tpl : string) (f : Handler)
| DoSubrouter (key : string).

Definition apply_change (grow : nat -> nat -> nat) (h : heap) (r : loc)
           (c : change) : result heap :=
  match c with
  | DoUse mws => Use grow h r mws
  | DoNotFound f => setNotFoundHandler h r f
  | DoHandle m tpl f => HandleRoute h r m tpl f
  | DoSubrouter key => hc ← Subrouter grow h r key; Ok hc.1
  end.

Fixpoint apply_changes (grow : nat -> nat -> nat) (h : heap) (r : loc)
         (cs : list change) : result heap :=
  match cs with
  | [] => Ok h
  | c :: rest => h1 ← apply_change grow h r c; apply_changes grow h1 r rest
  end.

(** The router at [c] holds in [h'] what it held in [h]: the same struct, and
    the same elements behind its middleware slice. *)
Definition kept (h h' : heap) (c : loc) : Prop :=
  forall oc, routers h !! c = Some oc ->
             routers h' !! c = Some oc
             /\ elems h' (o_middleware oc) = elems h (o_middleware oc).

(** What a router serves with: its middleware list and not-found handler. *)
Definition view (h : heap) (r : loc) : option (list Middleware * Handler) :=
  (fun o => (elems h (o_middleware o), o_NotFoundHandler o)) <$> routers h !! r.

End Store.

(** ** Handlers, routes and routers used in the worked examples *)

Module Examples.
Import Regexp Muxer Template Store.

(** The compiled pattern; the empty pattern where compilation fails. *)
Definition compiled (expr : string) : Regexp :=
  match Compile expr with
  | Parsed re => re
  | Rejected _ => mkRegexp Empty 0 expr
  end.

(** A handler that writes the parameter [k] of the request. *)
Definition echo (k : string) : Handler :=
  fun w req => Ok (Write w (default "" (Params req !! k))).

(** A handler that writes [s]. *)
Definition say (s : string) : Handler :=
  fun w _ => Ok (Write w s).

(** A handler that reads the whole body and writes it back, or answers 413
    when reading fails (the handler of TestMaxRequestBodySize). *)
Definition readBack : Handler :=
  fun w req =>
    match Body req with
    | None => Ok (WriteHeader w 200)
    | Some b =>
        match ReadAll b with
        | (_, Some _) => Ok (WriteHeader w StatusRequestEntityTooLarge)
        | (d, None) => Ok (Write (WriteHeader w 200) d)
        end
    end.

(** A middleware that writes [t>] on the way in and [<t] on the way out. *)
Definition tag (t : string) : Middleware :=
  fun next w req =>
    w' ← next (Write w (t +:+ ">")) req;
    Ok (Write w' ("<" +:+ t)).

Definition get (p : string) : Request := mkRequest "GET" (mkURL "" p) "" None 0 [].
Definition post (p : string) : Request := mkRequest "POST" (mkURL "" p) "" None 0 [].

(** A GET whose target names the host, as the test of the subrouters makes
    one, setting [req.URL.Host]. *)
Definition getAt (host p : string) : Request :=
  mkRequest "GET" (mkURL host p) host None 0 [].

(** A GET as a server receives it: the target is the path, the host comes in
    the Host header. *)
Definition getFor (host p : string) : Request :=
  mkRequest "GET" (mkURL "" p) host None 0 [].

(** A POST carrying [n] bytes, its length declared. *)
Definition postBody (p : string) (n : nat) : Request :=
  mkRequest "POST" (mkURL "" p) ""
            (Some (Bytes (string_of_list_ascii (replicate n "a"%char))))
            (Z.of_nat n) [].

(** A POST carrying [n] bytes that declares [declared] as its length (-1: the
    length is not known, as with chunked transfer). *)
Definition postDeclaring (p : string) (n : nat) (declared : Z) : Request :=
  mkRequest "POST" (mkURL "" p) ""
            (Some (Bytes (string_of_list_ascii (replicate n "a"%char))))
            declared [].

Definition usersRoute : Route :=
  mkRoute (compiled "^/users/([-\w.]+)$") "GET" (echo "id") ["id"] "/users/:id".

Definition usersPost : Route :=
  mkRoute (compiled "^/users/([-\w.]+)$") "POST" readBack ["id"] "/users/:id".

(** A later, more specific route for a path [usersRoute] also matches. *)
Definition usersMe : Route :=
  mkRoute (compiled "^/users/me$") "GET" (say "profile") [] "/users/me".

Definition helloRoute : Route :=
  mkRoute (compiled "^/hello$") "GET" (say "Hello, world!") [] "/hello".

Definition validateRoute : Route :=
  mkRoute (compiled "^/validate/*$") "GET" (echo "path") [] "/validate/*".

Definition exampleRoute : Route :=
  mkRoute (compiled "^/example$") "GET" (say "Example") [] "/example".

Definition grow2 (c n : nat) : nat := 2 * c.

(** The status and body a recorder ends with. *)
Definition outcome (r : result ResponseWriter) : option (Z * string) :=
  match r with
  | Ok w => Some (Code w, written w)
  | _ => None
  end.

(** The router of TestSubrouter: children keyed by a host and by a prefix,
    in either order of the map. *)
Definition apiChild : Router := mkRouter [usersRoute] [] [] NotFound 0.
Definition hostChild : Router := mkRouter [exampleRoute] [] [] NotFound 0.
Definition parent1 : Router :=
  mkRouter [] [] [("www.example.com", hostChild); ("/api", apiChild)] NotFound 0.
Definition parent2 : Router :=
  mkRouter [] [] [("/api", apiChild); ("www.example.com", hostChild)] NotFound 0.

(** A router with a body limit of 1024 bytes. *)
Definition limited : Router := mkRouter [usersPost] [] [] NotFound 1024.

(** The template /users/:id, read: literal text, then the token [:id]. *)
Definition usersReading : list ascii * list segment :=
  (list_ascii_of_string "/users/", [(list_ascii_of_string "id", [])]).

(** The template /hello/:name/:last of cmd/main.go, read. *)
Definition helloReading : list ascii * list segment :=
  (list_ascii_of_string "/hello/",
   [(list_ascii_of_string "name", list_ascii_of_string "/");
    (list_ascii_of_string "last", [])]).

(** The heap after [r := NewRouter()]: one router, at address 0. *)
Definition rootHeap : heap :=
  mkHeap {[0 := mkObj [] emptySlice ∅ NotFound 0%Z]} ∅ 1.

(** What a computation returns, [d] standing in where it panics. *)
Definition returned {A : Type} (d : A) (r : result A) : A :=
  match r with
  | Ok a => a
  | _ => d
  end.

(** [r.Use(A, B)] on the new router. *)
Definition heapAB : heap :=
  returned rootHeap (Use grow2 rootHeap 0 [tag "A"; tag "B"]).

(** [r.Use(A); api := r.Subrouter("/api")], then [r.Use(B)] and
    [r.NotFoundHandler = gone]. *)
Definition heapA : heap := returned rootHeap (Use grow2 rootHeap 0 [tag "A"]).
Definition heapApi : heap * loc :=
  returned (heapA, 0) (Subrouter grow2 heapA 0 "/api").
Definition laterChanges : list change :=
  [DoUse [tag "B"]; DoNotFound (say "gone")].
Definition heapLater : heap :=
  returned heapApi.1 (apply_changes grow2 heapApi.1 0 laterChanges).

(** [r.Use(A)] and then [r.Use(B)]. *)
Definition heapA_B : heap := returned heapA (Use grow2 heapA 0 [tag "B"]).

(** A route with a name and a pattern without group, as no call of
    [HandleRoute] on a template of the modelled fragment makes one. *)
Definition brokenRoute : Route :=
  mkRoute (compiled "^/hello$") "GET" (say "unreached") ["id"] "/hello".

(** The order in which the examples walk a map of children. *)
Definition byKey (m : gmap string loc) : list (string * loc) := map_to_list m.

(** A configuration built through the API:
    [r := NewRouter(); r.Use(A); api := r.Subrouter("/api"); r.Use(B);
     r.NotFoundHandler = gone; api.HandlerFunc(GET, /hello, ...);
     r.HandlerFunc(GET, /hello, ...)]. *)
Definition built : result (heap * loc * loc) :=
  '(h0, r) ← NewRouter emptyHeap [];
  h1 ← Use grow2 h0 r [tag "A"];
  '(h2, api) ← Subrouter grow2 h1 r "/api";
  h3 ← Use grow2 h2 r [tag "B"];
  h4 ← setNotFoundHandler h3 r (say "gone");
  h5 ← HandlerFunc h4 api "GET" "/hello" (say "Hello, world!");
  h6 ← HandlerFunc h5 r "GET" "/hello" (say "Hello, world!");
  Ok (h6, r, api).

(** What the router at [r] of [built] answers to [req]. *)
Definition builtServes (pick : loc * loc -> loc) (req : Request)
  : option (Z * string) :=
  match built with
  | Ok (h, r, api) =>
      match snapshot byKey 3 h (pick (r, api)) with
      | Some rt => outcome (ServeHTTP rt NewRecorder req)
      | None => None
      end
  | _ => None
  end.

End Examples.

(** * Properties *)

Module Properties.
Import Regexp Muxer Template Store Examples.

(** ** The matcher keeps one entry per group *)

Lemma iterate_keeps n step :
  (forall k, keeps n k -> keeps n (fun pos s c => step pos s c k)) ->
  forall fuel k, keeps n k -> keeps n (fun pos s c => iterate step fuel pos s c k).
Proof.
  intros Hstep fuel. induction fuel as [|fuel IH]; intros k Hk pos s c res Hc; simpl.
  - apply Hk, Hc.
  - destruct (step pos s c _) as [r|] eqn:E.
    + intros [= ->]. eapply (Hstep _ (IH k Hk)); eauto.
    + apply Hk, Hc.
Qed.

Lemma run_keeps n r : forall k, keeps n k -> keeps n (fun pos s c => run r pos s c k).
Proof.
  induction r as [| a | | neg items | | | a IHa b IHb | a IHa b IHb
                  | a IHa | a IHa | a IHa | i a IHa];
    intros k Hk pos s c res Hc; cbn [run].
  - apply Hk, Hc.
  - destruct s as [|x s']; [done|]. destruct (Ascii.eqb x a); [apply Hk, Hc | done].
  - destruct s as [|x s']; [done|].
    destruct (code x =? 10); [done | apply Hk, Hc].
  - destruct s as [|x s']; [done|].
    destruct (in_class neg items x); [apply Hk, Hc | done].
  - destruct (pos =? 0); [apply Hk, Hc | done].
  - destruct s; [apply Hk, Hc | done].
  - apply (IHa _ (IHb k Hk)), Hc.
  - destruct (run a pos s c k) eqn:E.
    + intros [= ->]. eapply (IHa k Hk); eauto.
    + apply (IHb k Hk), Hc.
  - apply (iterate_keeps n (run a) IHa _ k Hk), Hc.
  - refine (IHa _ _ pos s c res Hc).
    intros pos' s' c' res' Hc'.
    apply (iterate_keeps n (run a) IHa _ k Hk), Hc'.
  - destruct (run a pos s c k) eqn:E.
    + intros [= ->]. eapply (IHa k Hk); eauto.
    + apply Hk, Hc.
  - refine (IHa _ _ pos s c res Hc).
    intros pos' s' c' res' Hc'. apply Hk. by rewrite length_insert.
Qed.

Lemma match_at_length re pos s c :
  match_at re pos s = Some c -> length c = S (NumSubexp re).
Proof.
  unfold match_at. apply (run_keeps (S (NumSubexp re)) (prog re)).
  - intros pos' s' c' res Hc [= <-]. by rewrite length_insert.
  - by rewrite length_replicate.
Qed.

Lemma find_from_length re s : forall pos c,
  find_from re pos s = Some c -> length c = S (NumSubexp re).
Proof.
  induction s as [|x s IH]; intros pos c; simpl.
  - destruct (match_at re pos []) eqn:E; [|done].
    intros [= <-]. eapply match_at_length, E.
  - destruct (match_at re pos (x :: s)) eqn:E.
    + intros [= <-]. eapply match_at_length, E.
    + apply IH.
Qed.

(** [FindStringSubmatch] returns the whole match and one entry per group. *)
Lemma FindStringSubmatch_length re s m :
  FindStringSubmatch re s = Some m -> length m = S (NumSubexp re).
Proof.
  unfold FindStringSubmatch.
  destruct (find_from re 0 _) eqn:E; [|done].
  intros [= <-]. rewrite length_fmap. eapply find_from_length, E.
Qed.

(** ** [Route.match] *)

Lemma fill_ok m : forall paramNames i acc,
  length paramNames + i < length m -> exists ps, fill m paramNames i acc = Ok ps.
Proof.
  induction paramNames as [|name rest IH]; intros i acc Hlen; simpl in *.
  - eauto.
  - destruct (lookup_lt_is_Some_2 m (i + 1)) as [v Hv]; [lia|].
    rewrite Hv. apply IH. lia.
Qed.

Lemma Route_match_no_match r p :
  Route_match r p = Ok None <-> FindStringSubmatch (path r) p = None.
Proof.
  unfold Route_match. destruct (FindStringSubmatch (path r) p) as [m|]; [|done].
  split; [|done]. destruct (fill m (params r) 0 ∅); simpl; done.
Qed.

Lemma Route_match_some r p :
  length (params r) <= NumSubexp (path r) ->
  FindStringSubmatch (path r) p <> None ->
  exists ps, Route_match r p = Ok (Some ps).
Proof.
  intros Hwf Hm. unfold Route_match.
  destruct (FindStringSubmatch (path r) p) as [m|] eqn:E; [|done].
  apply FindStringSubmatch_length in E.
  destruct (fill_ok m (params r) 0 ∅) as [ps Hps]; [lia|].
  rewrite Hps. eauto.
Qed.

(** ** The scan of the route table *)

Lemma scan_selects_head rt later m p b ps :
  method rt = m -> Route_match rt p = Ok (Some ps) ->
  scan (rt :: later) m p b = Ok (Selected rt ps).
Proof.
  intros Hm Hp. simpl. rewrite (proj2 (String.eqb_eq _ _) Hm). simpl.
  by rewrite Hp.
Qed.

Lemma scan_skips r rest m p b :
  passes m p r ->
  scan (r :: rest) m p b
  = scan rest m p (b || negb (String.eqb (method r) m)).
Proof.
  intros [Hne | Hno]; simpl.
  - rewrite (proj2 (String.eqb_neq _ _) Hne). simpl. by rewrite orb_true_r.
  - destruct (String.eqb (method r) m); simpl; [|by rewrite orb_true_r].
    rewrite Hno. simpl. by rewrite orb_false_r.
Qed.

Lemma scan_selected_iff rs m p rt ps : forall b,
  scan rs m p b = Ok (Selected rt ps) <->
  exists pre post, rs = pre ++ rt :: post /\ method rt = m
                   /\ Route_match rt p = Ok (Some ps) /\ Forall (passes m p) pre.
Proof.
  induction rs as [|r rs IH]; intros b.
  - simpl. split; [done|]. intros (pre & post & E & _). by destruct pre.
  - split.
    + simpl. destruct (String.eqb (method r) m) eqn:Em; simpl.
      * apply String.eqb_eq in Em.
        destruct (Route_match r p) as [[ps'|]| |] eqn:Er; simpl.
        -- intros [= <- <-]. exists [], rs. by repeat split.
        -- intros H. apply IH in H as (pre & post & -> & ? & ? & ?).
           exists (r :: pre), post. repeat split; try done.
           constructor; [by right | done].
        -- done.
        -- done.
      * apply String.eqb_neq in Em. intros H.
        apply IH in H as (pre & post & -> & ? & ? & ?).
        exists (r :: pre), post. repeat split; try done.
        constructor; [by left | done].
    + intros (pre & post & E & Hm & Hp & Hpre).
      destruct pre as [|r' pre]; simpl in E; simplify_eq.
      * by apply scan_selects_head.
      * apply Forall_cons in Hpre as [Hr Hpre].
        rewrite scan_skips by done. apply IH. eauto 10.
Qed.

Lemma scan_unmatched rs m p : forall b0 b,
  scan rs m p b0 = Ok (Unmatched b) ->
  b = b0 || existsb (fun r => negb (String.eqb (method r) m)) rs.
Proof.
  induction rs as [|r rs IH]; intros b0 b; simpl.
  - intros [= <-]. by rewrite orb_false_r.
  - destruct (String.eqb (method r) m); simpl.
    + destruct (Route_match r p) as [[ps|]| |]; simpl; try done. apply IH.
    + intros H. apply IH in H. simpl in H. subst b. by rewrite orb_true_r.
Qed.

(** ** The middleware chain *)

Lemma wrap_from_app mw : forall n rest h,
  n = length mw -> wrap_from (mw ++ rest) n h = foldr (fun m k => m k) h mw.
Proof.
  induction mw as [|m mw IH] using rev_ind; intros n rest h ->; [done|].
  rewrite length_app, Nat.add_1_r. cbn [wrap_from].
  rewrite <- app_assoc. cbn [app].
  rewrite list_lookup_middle by done.
  rewrite (IH (length mw) (m :: rest) (m h)) by done.
  by rewrite foldr_app.
Qed.

(** The loop builds [m1 (m2 (... (mn h)))]. *)
Lemma wrap_foldr mw h : wrap mw h = foldr (fun m k => m k) h mw.
Proof.
  unfold wrap. rewrite <- (app_nil_r mw) at 1. by apply wrap_from_app.
Qed.

(** ** [ServeHTTP], stage by stage *)

Lemma ServeHTTP_unfold r w req :
  ServeHTTP r w req =
  match limitBody (MaxRequestBodySize r) req with
  | None => Ok (Error w "Request body too large" StatusRequestEntityTooLarge)
  | Some req1 =>
      probe ServeHTTP (serveRoutes (routes r) (middleware r) (NotFoundHandler r))
            (subrouters r) w req1
  end.
Proof. by destruct r. Qed.

Lemma probe_none {R} (serve : R -> Handler) fallback l w req :
  Forall (fun kc => claims kc.1 req = None) l ->
  probe serve fallback l w req = fallback w req.
Proof.
  induction 1 as [|[k c] l Hk _ IH]; simpl in *; [done|]. by rewrite Hk.
Qed.

Lemma probe_first {R} (serve : R -> Handler) fallback pre k c post w req req' :
  Forall (fun kc => claims kc.1 req = None) pre ->
  claims k req = Some req' ->
  probe serve fallback (pre ++ (k, c) :: post) w req = serve c w req'.
Proof.
  induction 1 as [|[k0 c0] l Hk _ IH]; simpl in *; intros Hc.
  - by rewrite Hc.
  - rewrite Hk. by apply IH.
Qed.

(** ** Dispatch *)

(** C1. First-registered match wins.  The scan selects a route exactly when
    the table splits as [pre ++ rt :: post] where [rt] has the request's
    method and its pattern matches the path, and no route of [pre] has both;
    the selected route's handler, wrapped in the middleware, is then applied
    once to the request carrying the parameters (with no middleware, the
    handler itself is applied once); a route at the head that matches is
    selected whatever routes are registered after it; and [ServeHTTP] comes
    to this scan whenever the body is accepted and no child claims the
    request. *)
Theorem first_registered_match_wins
        (rs : list Route) (mw : list Middleware) (nf : Handler)
        (w : ResponseWriter) (req : Request)
        (rt : Route) (ps : gmap string string) :
  (scan rs (Method req) (Path (url req)) false = Ok (Selected rt ps) <->
   exists pre post,
     rs = pre ++ rt :: post /\ method rt = Method req
     /\ Route_match rt (Path (url req)) = Ok (Some ps)
     /\ Forall (passes (Method req) (Path (url req))) pre)
  /\ (scan rs (Method req) (Path (url req)) false = Ok (Selected rt ps) ->
      serveRoutes rs mw nf w req = wrap mw (handler rt) w (attach req rt ps)
      /\ (mw = [] -> serveRoutes rs mw nf w req = handler rt w (attach req rt ps)))
  /\ (forall later,
        method rt = Method req ->
        Route_match rt (Path (url req)) = Ok (Some ps) ->
        serveRoutes (rt :: later) mw nf w req
        = wrap mw (handler rt) w (attach req rt ps))
  /\ (forall r req0,
        routes r = rs -> middleware r = mw -> NotFoundHandler r = nf ->
        limitBody (MaxRequestBodySize r) req0 = Some req ->
        Forall (fun kc => claims kc.1 req = None) (subrouters r) ->
        ServeHTTP r w req0 = serveRoutes rs mw nf w req).
Proof.
  split; [apply scan_selected_iff|]. split; [|split].
  - intros Hs. unfold serveRoutes. rewrite Hs. simpl. split; [done|].
    by intros ->.
  - intros later Hm Hp. unfold serveRoutes.
    by rewrite (scan_selects_head rt later _ _ false ps Hm Hp).
  - intros r req0 <- <- <- Hl Hc. rewrite ServeHTTP_unfold, Hl.
    by apply probe_none.
Qed.

(** The later, more specific route is not preferred: with [/users/:id]
    registered before [/users/me], GET /users/me runs the first handler
    with [id = "me"]. *)
Example earlier_route_wins :
  scan [usersRoute; usersMe] "GET" "/users/me" false
  = Ok (Selected usersRoute {["id" := "me"]})
  /\ outcome (serveRoutes [usersRoute; usersMe] [] NotFound NewRecorder
                          (get "/users/me")) = Some (200%Z, "me").
Proof. split; vm_compute; reflexivity. Qed.

Lemma Error_code w msg c :
  wroteHeader w = false ->
  Code (Error w msg c) = c /\ written (Error w msg c) = written w +:+ msg +:+ newline.
Proof. intros H. unfold Error, Write, WriteHeader. simpl. by rewrite H. Qed.

(** C2. End of scan.  When the scan selects no route, the flag it ends with
    is set exactly when some route of the table has a method other than the
    request's (the routes' patterns play no part); when set, the response is
    405 with the text [Method not allowed]; otherwise the not-found handler
    is called with the request, and the default one answers 404. *)
Theorem unmatched_405_or_not_found
        (rs : list Route) (mw : list Middleware) (nf : Handler)
        (w : ResponseWriter) (req : Request) (b : bool)
        (Hscan : scan rs (Method req) (Path (url req)) false = Ok (Unmatched b)) :
  b = existsb (fun r => negb (String.eqb (method r) (Method req))) rs
  /\ (b = true ->
      serveRoutes rs mw nf w req
      = Ok (Error w "Method not allowed" StatusMethodNotAllowed)
      /\ (wroteHeader w = false ->
          Code (Error w "Method not allowed" StatusMethodNotAllowed) = 405%Z))
  /\ (b = false ->
      serveRoutes rs mw nf w req = nf w req
      /\ (nf = NotFound ->
          serveRoutes rs mw nf w req
          = Ok (Error w "404 page not found" StatusNotFound)
          /\ (wroteHeader w = false ->
              Code (Error w "404 page not found" StatusNotFound) = 404%Z))).
Proof.
  split; [by apply scan_unmatched in Hscan|].
  unfold serveRoutes. rewrite Hscan.
  split; intros ->; (split; [done|]).
  - intros Hw. by apply (Error_code w).
  - intros ->. split; [done|]. intros Hw. by apply (Error_code w).
Qed.

(** A 405 where no route's path matches: only GET /users/:id is registered
    and the request is POST /nowhere. *)
Lemma unmatched_405_witness :
  scan [usersRoute] "POST" "/nowhere" false = Ok (Unmatched true)
  /\ Route_match usersRoute "/nowhere" = Ok None
  /\ outcome (serveRoutes [usersRoute] [] NotFound NewRecorder (post "/nowhere"))
     = Some (405%Z, "Method not allowed" +:+ newline).
Proof.
  assert (H : scan [usersRoute] (Method (post "/nowhere"))
                   (Path (url (post "/nowhere"))) false = Ok (Unmatched true))
    by (vm_compute; reflexivity).
  split; [exact H|]. split; [vm_compute; reflexivity|].
  destruct (unmatched_405_or_not_found [usersRoute] [] NotFound NewRecorder
              (post "/nowhere") true H) as (_ & H405 & _).
  destruct (H405 eq_refl) as [-> _]. vm_compute; reflexivity.
Defined.

(** C9. [Params] always returns a map: the empty one when the context has
    no binding for the parameter key or binds it to a value of another
    type, the attached one after a match (empty when nothing was captured);
    and when no route is selected the not-found handler gets the request
    as it came, so [Params] on it gives what it gave before dispatch. *)
Theorem Params_total (req : Request) :
  (Value (ctx req) ParamsKey = None -> Params req = ∅)
  /\ (forall v, Value (ctx req) ParamsKey = Some v ->
                (forall m, v <> ParamsValue m) -> Params req = ∅)
  /\ (forall m, Value (ctx req) ParamsKey = Some (ParamsValue m) -> Params req = m)
  /\ (forall rt ps, Params (attach req rt ps) = ps)
  /\ (forall rs mw nf w,
        scan rs (Method req) (Path (url req)) false = Ok (Unmatched false) ->
        serveRoutes rs mw nf w req = nf w req).
Proof.
  unfold Params. repeat split.
  - by intros ->.
  - intros v -> Hv. destruct v; try done. by destruct (Hv m).
  - by intros m ->.
  - intros rs mw nf w Hs. unfold serveRoutes. by rewrite Hs.
Qed.

(** ** The body guard *)

(** C7. With a positive limit and a body present: a declared length above
    the limit is answered 413 at once, whatever children and routes the
    router has.  Otherwise dispatch goes on with a request that differs from
    the one received in its body only, which is the body received behind a
    limiting reader; the handler of a route the router selects gets that
    body.  Reading through the limiting reader gives what reading the body
    gives when that is at most [limit] bytes, and the first [limit] bytes
    and a failure when it is more, whatever length was declared. *)
Theorem body_size_guard
        (r : Router) (w : ResponseWriter) (req : Request) (b : Reader)
        (Hmax : (0 < MaxRequestBodySize r)%Z) (Hbody : Body req = Some b) :
  ((MaxRequestBodySize r < ContentLength req)%Z ->
   ServeHTTP r w req
   = Ok (Error w "Request body too large" StatusRequestEntityTooLarge)
   /\ forall rs mw subs nf,
       ServeHTTP (mkRouter rs mw subs nf (MaxRequestBodySize r)) w req
       = ServeHTTP r w req)
  /\ ((ContentLength req <= MaxRequestBodySize r)%Z ->
      ServeHTTP r w req
      = probe ServeHTTP
              (serveRoutes (routes r) (middleware r) (NotFoundHandler r))
              (subrouters r) w
              (setBody req (MaxBytesReader b (MaxRequestBodySize r)))
      /\ (forall rt ps,
            Forall (fun kc : string * Router =>
                      claims kc.1 (setBody req (MaxBytesReader b (MaxRequestBodySize r)))
                      = None) (subrouters r) ->
            scan (routes r) (Method req) (Path (url req)) false
            = Ok (Selected rt ps) ->
            ServeHTTP r w req
            = wrap (middleware r) (handler rt) w
                   (attach (setBody req (MaxBytesReader b (MaxRequestBodySize r)))
                           rt ps)))
  /\ (forall b' rt ps,
        Body (setBody req b') = Some b'
        /\ Body (attach (setBody req b') rt ps) = Some b'
        /\ Method (setBody req b') = Method req
        /\ url (setBody req b') = url req
        /\ reqHost (setBody req b') = reqHost req
        /\ ContentLength (setBody req b') = ContentLength req
        /\ ctx (setBody req b') = ctx req)
  /\ (forall d e,
        ReadAll b = (d, e) ->
        ((Z.of_nat (String.length d) <= MaxRequestBodySize r)%Z ->
         ReadAll (MaxBytesReader b (MaxRequestBodySize r)) = (d, e))
        /\ ((MaxRequestBodySize r < Z.of_nat (String.length d))%Z ->
            ReadAll (MaxBytesReader b (MaxRequestBodySize r))
            = (string_of_list_ascii
                 (take (Z.to_nat (MaxRequestBodySize r)) (list_ascii_of_string d)),
               Some "http: request body too large"))).
Proof.
  assert (Hpos : (0 <? MaxRequestBodySize r)%Z = true) by lia.
  split; [|split; [|split]].
  - intros Hlen.
    assert (Hl : forall max, max = MaxRequestBodySize r -> limitBody max req = None).
    { intros max ->. unfold limitBody. rewrite Hpos, Hbody.
      by destruct (Z.leb_spec (ContentLength req) (MaxRequestBodySize r)); [lia|]. }
    split.
    + by rewrite ServeHTTP_unfold, Hl.
    + intros rs mw subs nf. rewrite !ServeHTTP_unfold. simpl. by rewrite !Hl.
  - intros Hlen.
    assert (Hgo : ServeHTTP r w req
                  = probe ServeHTTP
                      (serveRoutes (routes r) (middleware r) (NotFoundHandler r))
                      (subrouters r) w
                      (setBody req (MaxBytesReader b (MaxRequestBodySize r)))).
    { rewrite ServeHTTP_unfold. unfold limitBody. rewrite Hpos, Hbody.
      by destruct (Z.leb_spec (ContentLength req) (MaxRequestBodySize r)); [|lia]. }
    split; [done|]. intros rt ps Hnone Hscan.
    rewrite Hgo, probe_none by done. unfold serveRoutes. cbn [setBody Method url].
    by rewrite Hscan.
  - done.
  - intros d e Hd. cbn [ReadAll]. rewrite Hd.
    replace (Z.max 0 (MaxRequestBodySize r)) with (MaxRequestBodySize r) by lia.
    split; intros Hn.
    + by destruct (Z.leb_spec (Z.of_nat (String.length d)) (MaxRequestBodySize r));
        [|lia].
    + by destruct (Z.leb_spec (Z.of_nat (String.length d)) (MaxRequestBodySize r));
        [lia|].
Qed.

(** With the limit at 1024: a POST declaring 1025 bytes is answered 413; one
    of 1024 bytes reaches the handler with its body behind the limiting
    reader, and the handler reads all of it; one of 1025 bytes that does not
    declare its length reaches the handler too, whose read fails after 1024
    bytes. *)
Lemma body_size_guard_witness :
  outcome (ServeHTTP limited NewRecorder (postBody "/users/123" 1025))
  = Some (413%Z, "Request body too large" +:+ newline)
  /\ ServeHTTP limited NewRecorder (postBody "/users/123" 1024)
     = readBack NewRecorder
         (attach (setBody (postBody "/users/123" 1024)
                    (MaxBytesReader
                       (Bytes (string_of_list_ascii (replicate 1024 "a"%char))) 1024))
                 usersPost {["id" := "123"]})
  /\ outcome (ServeHTTP limited NewRecorder (postBody "/users/123" 1024))
     = Some (200%Z, string_of_list_ascii (replicate 1024 "a"%char))
  /\ ReadAll (MaxBytesReader
                (Bytes (string_of_list_ascii (replicate 1025 "a"%char))) 1024)
     = (string_of_list_ascii (replicate 1024 "a"%char),
        Some "http: request body too large")
  /\ outcome (ServeHTTP limited NewRecorder (postDeclaring "/users/123" 1025 (-1)))
     = Some (413%Z, "").
Proof.
  pose (body := fun n => Bytes (string_of_list_ascii (replicate n "a"%char))).
  assert (Hscan : forall req, Method req = "POST" -> Path (url req) = "/users/123" ->
            scan (routes limited) (Method req) (Path (url req)) false
            = Ok (Selected usersPost {["id" := "123"]})).
  { intros req -> ->. vm_compute. reflexivity. }
  split_and!.
  - destruct (body_size_guard limited NewRecorder (postBody "/users/123" 1025)
                (body 1025)) as ([-> _] & _);
      [reflexivity | reflexivity | vm_compute; reflexivity |].
    vm_compute; reflexivity.
  - destruct (body_size_guard limited NewRecorder (postBody "/users/123" 1024)
                (body 1024)) as (_ & H & _); [reflexivity | reflexivity |].
    destruct H as [_ H]; [vm_compute; discriminate|].
    rewrite (H usersPost {["id" := "123"]}); [reflexivity | constructor |].
    by apply Hscan.
  - destruct (body_size_guard limited NewRecorder (postBody "/users/123" 1024)
                (body 1024)) as (_ & H & _ & Hread); [reflexivity | reflexivity |].
    destruct H as [_ H]; [vm_compute; discriminate|].
    rewrite (H usersPost {["id" := "123"]}); [| constructor | by apply Hscan].
    destruct (Hread (string_of_list_ascii (replicate 1024 "a"%char)) None eq_refl)
      as [Hall _].
    cbn [wrap wrap_from middleware limited length handler usersPost readBack attach
         WithContext Body setBody postBody MaxRequestBodySize] in Hall |- *.
    rewrite Hall by (vm_compute; discriminate). vm_compute; reflexivity.
  - destruct (body_size_guard limited NewRecorder
                (postDeclaring "/users/123" 1025 (-1)) (body 1025))
      as (_ & _ & _ & Hread); [reflexivity | reflexivity |].
    destruct (Hread (string_of_list_ascii (replicate 1025 "a"%char)) None eq_refl)
      as [_ Hcut].
    etrans; [apply Hcut; vm_compute; reflexivity | vm_compute; reflexivity].
  - destruct (body_size_guard limited NewRecorder
                (postDeclaring "/users/123" 1025 (-1)) (body 1025))
      as (_ & H & _ & Hread); [reflexivity | reflexivity |].
    destruct H as [_ H]; [vm_compute; discriminate|].
    rewrite (H usersPost {["id" := "123"]}); [| constructor | by apply Hscan].
    destruct (Hread (string_of_list_ascii (replicate 1025 "a"%char)) None eq_refl)
      as [_ Hcut].
    cbn [wrap wrap_from middleware limited length handler usersPost readBack attach
         WithContext Body setBody postDeclaring MaxRequestBodySize] in Hcut |- *.
    rewrite Hcut by (vm_compute; reflexivity). vm_compute; reflexivity.
Defined.

(** A limit put on a stream that another limit already guards cuts where it
    stands itself: of six bytes behind limits 4 and then 2, two are read; and a
    negative limit is the limit 0, which an empty body meets. *)
Example body_limits_nested :
  ReadAll (MaxBytesReader (MaxBytesReader (Bytes "abcdef") 4) 2)
  = ("ab", Some "http: request body too large")
  /\ ReadAll (MaxBytesReader (MaxBytesReader (Bytes "abcdef") 2) 4)
     = ("ab", Some "http: request body too large")
  /\ ReadAll (MaxBytesReader (Bytes "") (-1)) = ("", None)
  /\ ReadAll (MaxBytesReader (Bytes "a") (-1))
     = ("", Some "http: request body too large").
Proof. split_and!; vm_compute; reflexivity. Qed.

(** ** Delegation to children *)





(** A request as a server receives it, with the host in the Host header and
    a path as its target: the child keyed by that host does not claim it,
    and the router of TestSubrouter answers it 404, in either order of its
    map. *)
Lemma host_header_not_compared :
  reqHost (getFor "www.example.com" "/example") = "www.example.com"
  /\ Host (url (getFor "www.example.com" "/example")) = ""
  /\ claims "www.example.com" (getFor "www.example.com" "/example") = None
  /\ Forall (fun parent =>
               outcome (ServeHTTP parent NewRecorder
                                  (getFor "www.example.com" "/example"))
               = Some (404%Z, "404 page not found" +:+ newline))
            [parent1; parent2].
Proof. split_and!; [..|repeat constructor]; vm_compute; reflexivity. Qed.

(** The router of TestSubrouter, in either order of its map: the prefix
    child gets /api/users/123 as /users/123 with [id = "123"]; the host
    child gets any request whose host is its key; a request no child
    claims falls to the parent, here with no route. *)
Example subrouter_examples :
  Forall (fun parent =>
            outcome (ServeHTTP parent NewRecorder (get "/api/users/123"))
            = Some (200%Z, "123")
            /\ outcome (ServeHTTP parent NewRecorder
                                  (getAt "www.example.com" "/example"))
               = Some (200%Z, "Example")
            /\ outcome (ServeHTTP parent NewRecorder (get "/users/123"))
               = Some (404%Z, "404 page not found" +:+ newline))
         [parent1; parent2]
  /\ scan [usersRoute] "GET" "/users/123" false
     = Ok (Selected usersRoute {["id" := "123"]}).
Proof. split; [repeat constructor|]; vm_compute; reflexivity. Qed.

(** ** The wildcard template *)

(** C4 (what the code does).  [HandleRoute] has no case for [*]: the
    template /validate/* compiles to the pattern ^/validate/*$, where [*]
    repeats the slash; the route has no parameter named [path], does not
    match /validate/foo/bar, and the request is answered 404. *)
Theorem wildcard_not_captured :
  newRoute "GET" "/validate/*" (echo "path") = Ok validateRoute
  /\ source (path validateRoute) = "^/validate/*$"
  /\ params validateRoute = []
  /\ Route_match validateRoute "/validate/foo/bar" = Ok None
  /\ Route_match validateRoute "/validate/foo" = Ok None
  /\ Route_match validateRoute "/validate///" = Ok (Some ∅)
  /\ outcome (ServeHTTP (mkRouter [validateRoute] [] [] NotFound 0) NewRecorder
                        (get "/validate/foo/bar"))
     = Some (404%Z, "404 page not found" +:+ newline).
Proof. repeat split; vm_compute; reflexivity. Qed.

(** ** Templates *)



Lemma in_class_name c : in_class false [CWord; CChar "-"] c = is_name c.
Proof. unfold in_class, is_name, ch. simpl. by rewrite orb_false_r. Qed.

Lemma in_class_value c :
  in_class false [CChar "-"; CWord; CChar "."] c = is_value c.
Proof. unfold in_class, is_value, ch. simpl. by rewrite orb_false_r, orb_assoc. Qed.

Lemma forallb_eq {A} (f g : A -> bool) l :
  (forall x, f x = g x) -> forallb f l = forallb g l.
Proof. intros H. induction l as [|x l IH]; simpl; [done | by rewrite H, IH]. Qed.

(** A greedy repetition of a class runs to the end of the run of its
    characters when the rest of the pattern accepts there. *)
Lemma iterate_greedy neg items n : forall fuel pos t c k r,
  forallb (in_class neg items) n = true ->
  match t with d :: _ => in_class neg items d = false | [] => True end ->
  length n <= fuel ->
  k (pos + length n) t c = Some r ->
  iterate (run (Class neg items)) fuel pos (n ++ t) c k = Some r.
Proof.
  induction n as [|x n IH]; intros fuel pos t c k r Hn Ht Hf Hk; simpl in *.
  - rewrite Nat.add_0_r in Hk. destruct fuel as [|fuel]; simpl; [done|].
    destruct t as [|d t]; [done|]. by rewrite Ht.
  - destruct fuel as [|fuel]; [lia|]. simpl.
    apply andb_true_iff in Hn as [Hx Hn]. rewrite Hx.
    rewrite (IH fuel (S pos) t c k r); try done; [lia|].
    by rewrite <- Hk, Nat.add_succ_r.
Qed.


(** The first pattern matches at a colon followed by name characters, up to
    the last of them. *)
Lemma match_at_token pos n t :
  n <> [] -> forallb is_name n = true -> breaks t = true ->
  match_at paramRe pos (":"%char :: n ++ t)
  = Some [Some (pos, pos + 1 + length n); Some (S pos, pos + 1 + length n)].
Proof.
  intros Hne Hn Ht. destruct n as [|x n]; [done|]. clear Hne.
  simpl in Hn. apply andb_true_iff in Hn as [Hx Hn].
  unfold match_at, paramRe. cbn [prog NumSubexp run app]. simpl Ascii.eqb.
  cbn iota. rewrite in_class_name, Hx.
  apply (iterate_greedy false [CWord; CChar "-"] n).
  - by rewrite (forallb_eq _ is_name n in_class_name).
  - destruct t as [|d t]; [done|]. simpl in Ht. rewrite in_class_name.
    by destruct (is_name d).
  - rewrite length_app. lia.
  - simpl. do 4 f_equal; f_equal; lia.
Qed.

(** It matches nowhere else. *)
Lemma match_at_no_token pos s :
  match s with
  | c :: d :: _ => ch c ":" && is_name d = false
  | _ => True
  end ->
  match_at paramRe pos s = None.
Proof.
  intros Hs. unfold match_at, paramRe. cbn [prog NumSubexp run].
  destruct s as [|c [|d t]]; [done | by destruct (Ascii.eqb c ":") |].
  unfold ch in Hs. destruct (Ascii.eqb c ":"); [|done].
  simpl in Hs. by rewrite in_class_name, Hs.
Qed.

(** The search goes over literal text in which no token starts. *)
Lemma find_from_skip l : forall pos rest,
  clean l = true ->
  match rest with d :: _ => is_name d = false | [] => True end ->
  find_from paramRe pos (l ++ rest) = find_from paramRe (pos + length l) rest.
Proof.
  induction l as [|c l IH]; intros pos rest Hc Hr.
  - simpl. by rewrite Nat.add_0_r.
  - cbn [app find_from]. simpl in Hc. apply andb_true_iff in Hc as [Hc1 Hc2].
    rewrite match_at_no_token.
    + rewrite IH by done. simpl. by rewrite Nat.add_succ_r.
    + destruct l as [|d l]; simpl.
      * destruct rest as [|d r]; [done|]. rewrite Hr. apply andb_false_r.
      * by apply negb_true_iff in Hc1.
Qed.

Lemma breaks_render l segs :
  breaks l = true -> breaks (l ++ render (fun n => ":"%char :: n) segs) = true.
Proof.
  destruct l as [|d l]; [|done]. intros _. by destruct segs as [|[n l] segs].
Qed.

(** The loop of [ReplaceAllStringFunc] on a template: from the start of a
    stretch of literal text, it copies the text, writes the group for each
    token and hands the token's name to the closure. *)
Lemma replace_loop_tokens segs : forall fuel src p lit buf acc,
  drop p src = lit ++ render (fun n => ":"%char :: n) segs ->
  p <= length src ->
  length (lit ++ render (fun n => ":"%char :: n) segs) < fuel ->
  clean lit = true -> forallb wf_segment segs = true ->
  replace_loop fuel paramRe src collect p p buf acc
  = (buf ++ lit ++ render (fun _ => list_ascii_of_string paramGroup) segs,
     acc ++ map (fun sg : segment => string_of_list_ascii sg.1) segs).
Proof.
  induction segs as [|[n l] segs IH]; intros fuel src p lit buf acc Hd Hp Hf Hc Hw.
  - simpl in *. rewrite !app_nil_r in *.
    destruct fuel as [|fuel]; [lia|]. cbn [replace_loop].
    destruct (Nat.ltb_spec (length src) p) as [?|_]; [lia|].
    rewrite Hd. rewrite <- (app_nil_r lit) at 1.
    rewrite find_from_skip by done. done.
  - destruct fuel as [|fuel]; [lia|]. cbn [replace_loop].
    destruct (Nat.ltb_spec (length src) p) as [?|_]; [lia|].
    simpl in Hw. apply andb_true_iff in Hw as [Hseg Hw].
    unfold wf_segment in Hseg. simpl in Hseg.
    apply andb_true_iff in Hseg as [Hseg Hcl].
    apply andb_true_iff in Hseg as [Hseg Hbr].
    apply andb_true_iff in Hseg as [Hne Hn].
    apply negb_true_iff, bool_decide_eq_false in Hne.
    cbn [render] in Hd. rewrite Hd.
    rewrite find_from_skip by done.
    cbn [app]. cbn [find_from].
    rewrite match_at_token by (try done; by apply breaks_render).
    destruct (Nat.ltb_spec p (p + length lit + 1 + length n)) as [_|?]; [|lia].
    destruct (Nat.ltb_spec (p + length lit + 1 + length n) (p + 1)) as [?|_];
      [lia|].
    cbn [orb].
    assert (Hs1 : Regexp.slice p (p + length lit) src = lit).
    { unfold Regexp.slice. rewrite Hd.
      replace (p + length lit - p) with (length lit) by lia.
      by rewrite take_app_length. }
    assert (Hd2 : drop (p + length lit) src
                  = (":"%char :: n)
                      ++ l ++ render (fun n => ":"%char :: n) segs).
    { by rewrite <- drop_drop, Hd, drop_app_length. }
    assert (Hs2 : Regexp.slice (p + length lit) (p + length lit + 1 + length n) src
                  = ":"%char :: n).
    { unfold Regexp.slice. rewrite Hd2.
      replace (p + length lit + 1 + length n - (p + length lit))
        with (length (":"%char :: n)) by (simpl; lia).
      by rewrite take_app_length. }
    rewrite Hs1, Hs2. unfold collect at 1.
    cbn [string_of_list_ascii Strings.drop_string].
    rewrite (IH fuel src _ l).
    + simpl. by rewrite <- !app_assoc.
    + replace (p + length lit + 1 + length n)
        with (p + length lit + length (":"%char :: n)) by (simpl; lia).
      by rewrite <- drop_drop, Hd2, drop_app_length.
    + apply (f_equal length) in Hd. rewrite length_drop, !length_app in Hd.
      simpl in Hd. lia.
    + rewrite !length_app in *. simpl in Hf. rewrite !length_app in Hf. lia.
    + done.
    + done.
Qed.


(** *** Every template reads as literal text and tokens *)

Lemma span_name_spec s :
  s = (span_name s).1 ++ (span_name s).2
  /\ forallb is_name (span_name s).1 = true
  /\ breaks (span_name s).2 = true
  /\ (clean s = true -> clean (span_name s).2 = true)
  /\ (match s with d :: _ => is_name d = true | [] => False end ->
      (span_name s).1 <> []).
Proof.
  induction s as [|c t (IH1 & IH2 & IH3 & IH4 & _)]; [done|].
  cbn [span_name]. destruct (is_name c) eqn:Hc.
  - destruct (span_name t) as [n r]. simpl in *. split_and!; try done.
    + by f_equal.
    + by rewrite Hc.
    + intros H. apply andb_true_iff in H as [_ H]. by apply IH4.
  - simpl. rewrite Hc. by split_and!.
Qed.

Lemma tokens_spec s :
  wf (tokens s) = true /\ templateText (tokens s) = s.
Proof.
  unfold wf, templateText.
  induction s as [|c s [Hwf Htx]]; [done|].
  apply andb_true_iff in Hwf as [Hcl Hsegs].
  unfold tokens in *. cbn [foldr].
  destruct (foldr token_step ([], []) s) as [lit segs]. simpl in *.
  destruct (ch c ":" && match lit with d :: _ => is_name d | [] => false end)
    eqn:Hc; simpl.
  - apply andb_true_iff in Hc as [Hcolon Hhead].
    apply Ascii.eqb_eq in Hcolon. subst c.
    destruct (span_name_spec lit) as (H1 & H2 & H3 & H4 & H5).
    destruct (span_name lit) as [n l]. simpl in *. split.
    + rewrite Hsegs, andb_true_r. unfold wf_segment. simpl.
      rewrite H2, H3, H4 by done.
      rewrite bool_decide_eq_false_2; [done|].
      apply H5. by destruct lit.
    + f_equal. rewrite app_assoc, <- H1. done.
  - rewrite Hc, Hcl, Hsegs. split; [done | by f_equal].
Qed.

(** *** What [HandleRoute] computes from a template *)

Lemma ReplaceAll_reading t :
  wf t = true ->
  ReplaceAllStringFunc paramRe (string_of_list_ascii (templateText t)) collect []
  = (string_of_list_ascii (patternText t), names t).
Proof.
  intros Hwf. unfold wf in Hwf. apply andb_true_iff in Hwf as [Hcl Hsegs].
  unfold ReplaceAllStringFunc. rewrite list_ascii_of_string_of_list_ascii.
  unfold templateText.
  by rewrite (replace_loop_tokens t.2 _ _ 0 t.1 [] [])
    by first [done | simpl; lia].
Qed.

Lemma ReplaceAll_tokens tpl :
  ReplaceAllStringFunc paramRe tpl collect []
  = (string_of_list_ascii (patternText (tokens (list_ascii_of_string tpl))),
     names (tokens (list_ascii_of_string tpl))).
Proof.
  destruct (tokens_spec (list_ascii_of_string tpl)) as [Hwf Htx].
  rewrite <- (ReplaceAll_reading _ Hwf), Htx.
  by rewrite string_of_list_ascii_of_string.
Qed.



Lemma compileTemplate_tokens tpl :
  compileTemplate tpl
  = (exactPath ← MustCompile
        ("^" +:+ string_of_list_ascii
                   (patternText (tokens (list_ascii_of_string tpl))) +:+ "$");
     Ok (exactPath, names (tokens (list_ascii_of_string tpl)))).
Proof.
  unfold compileTemplate.
  change (MustCompile paramPattern) with (Ok paramRe).
  cbn [mbind result_bind].
  change (ReplaceAllStringFunc paramRe tpl _ [])
    with (ReplaceAllStringFunc paramRe tpl collect []).
  by rewrite ReplaceAll_tokens.
Qed.

(** *** What the group matches *)




(** *** [Route.match] zips the names with the submatches *)

Lemma fill_zip m : forall paramNames i acc,
  length paramNames + i < length m ->
  fill m paramNames i acc
  = Ok (foldl (fun acc nv => <[nv.1 := nv.2]> acc) acc
              (zip paramNames (drop (S i) m))).
Proof.
  induction paramNames as [|name rest IH]; intros i acc Hlen; simpl in *; [done|].
  destruct (lookup_lt_is_Some_2 m (S i)) as [v Hv]; [lia|].
  rewrite Nat.add_1_r, Hv. rewrite (drop_S _ _ _ Hv). simpl.
  apply IH. lia.
Qed.



Lemma compileTemplate_reading t :
  wf t = true ->
  compileTemplate (string_of_list_ascii (templateText t))
  = (exactPath ← MustCompile
        ("^" +:+ string_of_list_ascii (patternText t) +:+ "$");
     Ok (exactPath, names t)).
Proof.
  intros Hwf. rewrite compileTemplate_tokens.
  destruct (tokens_spec (templateText t)) as [Hwf' Htx].
  pose proof (ReplaceAll_reading _ Hwf) as H1.
  pose proof (ReplaceAll_tokens (string_of_list_ascii (templateText t))) as H2.
  rewrite H1 in H2. injection H2 as Hp Hn.
  by rewrite <- Hp, <- Hn.
Qed.

(** ** Slices and the heap *)

Section StoreLemmas.

Variable grow : nat -> nat -> nat.

Lemma omap_id_Some (xs : list Middleware) : omap id (Some <$> xs) = xs.
Proof. induction xs as [|x xs IH]; simpl; [done | by f_equal]. Qed.

Lemma elems_of_cells h s a xs rest :
  cells h s = a ++ (Some <$> xs) ++ rest ->
  len s = length a + length xs ->
  elems h s = omap id a ++ xs.
Proof.
  intros Hc Hl. unfold elems. rewrite Hc, Hl, app_assoc.
  rewrite take_app_length' by (by rewrite length_app, length_fmap).
  by rewrite omap_app, omap_id_Some.
Qed.

Lemma cells_frame_raw h h' s :
  (forall l, ptr s = Some l -> arrays h' !! l = arrays h !! l) ->
  cells h' s = cells h s.
Proof.
  intros H. unfold cells. destruct (ptr s) as [l|]; [|done]. by rewrite H.
Qed.

(** [append]: the result holds the old elements followed by the new ones;
    it writes to the slice's own array or to a fresh one, never to
    another allocated array. *)
Lemma append_spec h s xs h' s' :
  slice_ok h s -> append grow h s xs = (h', s') ->
  elems h' s' = elems h s ++ xs
  /\ slice_ok h' s'
  /\ routers h' = routers h
  /\ next h <= next h'
  /\ (ptr s' = ptr s \/ ptr s' = Some (next h))
  /\ (forall l, ptr s <> Some l -> l < next h ->
                arrays h' !! l = arrays h !! l).
Proof.
  intros (Hlen & Hcap & Hptr) Happ. unfold append in Happ.
  destruct xs as [|x xs].
  { simplify_eq. rewrite app_nil_r. by split_and!; auto. }
  cbv beta iota in Happ.
  remember (x :: xs) as ys eqn:Hys.
  assert (Hpos : 0 < length ys) by (subst ys; simpl; lia).
  clear x xs Hys.
  assert (Htake : length (take (len s) (cells h s)) = len s)
    by (rewrite length_take; lia).
  destruct (Nat.leb_spec (len s + length ys) (cap s)) as [Hfit|Hgrow].
  - destruct (ptr s) as [l|] eqn:Hp.
    + simplify_eq. split_and!; simpl; auto.
      * apply (elems_of_cells _ _ (take (len s) (cells h s)) ys
                              (drop (len s + length ys) (cells h s))).
        -- unfold cells at 1. simpl. by rewrite lookup_insert_eq.
        -- simpl. by rewrite Htake.
      * unfold slice_ok. simpl. split_and!; [done| |].
        -- unfold cells at 1. simpl. rewrite lookup_insert_eq. simpl.
           rewrite !length_app, length_fmap, length_drop, Htake. lia.
        -- intros l' [= <-]. by apply Hptr.
      * intros l' Hne _. apply lookup_insert_ne. congruence.
    + unfold cells in Hcap. rewrite Hp in Hcap. simpl in *. lia.
  - simplify_eq. split_and!; simpl; auto.
    + assert (Hold : cells (mkHeap (routers h)
                (<[next h := take (len s) (cells h s) ++ (Some <$> ys)
                     ++ replicate (Nat.max (len s + length ys)
                                     (grow (cap s) (len s + length ys))
                                   - (len s + length ys)) None]> (arrays h))
                (S (next h))) s = cells h s).
      { apply cells_frame_raw. intros l Hl. simpl.
        apply lookup_insert_ne. specialize (Hptr l Hl). lia. }
      apply (elems_of_cells _ _ (take (len s) (cells h s)) ys
               (replicate (Nat.max (len s + length ys)
                                   (grow (cap s) (len s + length ys))
                           - (len s + length ys)) None)).
      * unfold cells at 1. simpl. by rewrite lookup_insert_eq.
      * simpl. by rewrite Htake.
    + unfold slice_ok. simpl. split_and!; [lia| |].
      * unfold cells at 1. simpl. rewrite lookup_insert_eq. simpl.
        rewrite !length_app, length_fmap, length_replicate, Htake. lia.
      * intros l [= <-]. lia.
    + intros l _ Hl. apply lookup_insert_ne. lia.
Qed.

Lemma slice_ok_frame h h' s :
  slice_ok h s -> next h <= next h' ->
  (forall l, ptr s = Some l -> arrays h' !! l = arrays h !! l) ->
  slice_ok h' s /\ elems h' s = elems h s.
Proof.
  intros (Hlen & Hcap & Hptr) Hnext Hfr.
  unfold slice_ok, elems. rewrite (cells_frame_raw h h' s Hfr).
  repeat split; auto. intros l Hl. specialize (Hptr l Hl). lia.
Qed.

Lemma slice_ok_empty h : slice_ok h emptySlice.
Proof. unfold slice_ok, cells. simpl. split_and!; [lia | lia | done]. Qed.

(** The struct at [r] is replaced by one whose slice is the old one, or what
    [append] made of it: the heap stays in order and the other routers keep
    what they hold. *)
Lemma heap_ok_update h h1 r o o' :
  heap_ok h -> routers h !! r = Some o ->
  routers h1 = routers h -> next h <= next h1 ->
  slice_ok h1 (o_middleware o') ->
  (ptr (o_middleware o') = ptr (o_middleware o)
   \/ ptr (o_middleware o') = Some (next h)) ->
  (forall l, ptr (o_middleware o) <> Some l -> l < next h ->
             arrays h1 !! l = arrays h !! l) ->
  (forall k c, o_subrouters o' !! k = Some c ->
               r < c /\ is_Some (routers h !! c)) ->
  heap_ok (setRouter h1 r o')
  /\ forall c oc, c <> r -> routers h !! c = Some oc ->
                  routers (setRouter h1 r o') !! c = Some oc
                  /\ elems (setRouter h1 r o') (o_middleware oc)
                     = elems h (o_middleware oc).
Proof.
  intros Hok Hr Hrs Hnext Hs' Hptr Hfr Hsubs.
  assert (Hother : forall c oc, c <> r -> routers h !! c = Some oc ->
            slice_ok h1 (o_middleware oc)
            /\ elems h1 (o_middleware oc) = elems h (o_middleware oc)).
  { intros c oc Hne Hc. destruct (Hok c oc Hc) as (_ & Hsl & Hsh & _).
    apply slice_ok_frame; [done | done |].
    intros l Hl. apply Hfr.
    - apply (Hsh r o l); [congruence | done | done].
    - destruct Hsl as (_ & _ & Hp). by apply Hp. }
  split.
  - intros r0 o0 H0. unfold setRouter in H0. simpl in H0.
    destruct (decide (r0 = r)) as [->|Hne].
    + rewrite lookup_insert_eq in H0. simplify_eq.
      destruct (Hok r o Hr) as (Hlt & Hsl & Hsh & _).
      split_and!.
      * simpl. lia.
      * exact Hs'.
      * intros r' oo l Hne' Hoo Hl. simpl in Hoo.
        rewrite lookup_insert_ne, Hrs in Hoo by done.
        destruct Hptr as [Hsame | Hfresh].
        -- apply (Hsh r' oo l); [done | done | congruence].
        -- destruct (Hok r' oo Hoo) as (_ & (_ & _ & Hp) & _).
           intros Hl'. specialize (Hp l Hl'). rewrite Hfresh in Hl.
           simplify_eq. lia.
      * intros k c Hk. destruct (Hsubs k c Hk) as [Hlt' Hc].
        split; [done|]. simpl. rewrite lookup_insert_ne, Hrs by lia. done.
    + rewrite lookup_insert_ne, Hrs in H0 by done.
      destruct (Hok r0 o0 H0) as (Hlt & Hsl & Hsh & Hch).
      split_and!.
      * simpl. lia.
      * by apply (Hother r0 o0).
      * intros r' oo l Hne' Hoo Hl. simpl in Hoo.
        destruct (decide (r' = r)) as [->|Hne2].
        -- rewrite lookup_insert_eq in Hoo. simplify_eq.
           destruct Hptr as [Hsame | Hfresh].
           ++ rewrite Hsame. apply (Hsh r o l); [done | done | done].
           ++ rewrite Hfresh. destruct Hsl as (_ & _ & Hp).
              specialize (Hp l Hl). intros [= ?]. lia.
        -- rewrite lookup_insert_ne, Hrs in Hoo by done.
           by apply (Hsh r' oo l).
      * intros k c Hk. destruct (Hch k c Hk) as [Hlt' Hc].
        split; [done|]. simpl.
        destruct (decide (c = r)) as [->|Hne3].
        -- by rewrite lookup_insert_eq.
        -- by rewrite lookup_insert_ne, Hrs.
  - intros c oc Hne Hc. split.
    + simpl. by rewrite lookup_insert_ne, Hrs.
    + by apply (Hother c oc).
Qed.

Lemma kept_trans h h1 h2 c : kept h h1 c -> kept h1 h2 c -> kept h h2 c.
Proof.
  intros H1 H2 oc Hc. destruct (H1 oc Hc) as [Hc1 He1].
  destruct (H2 oc Hc1) as [Hc2 He2]. split; [done | congruence].
Qed.

Lemma kept_view h h' c : kept h h' c -> is_Some (routers h !! c) -> view h' c = view h c.
Proof.
  intros Hk [oc Hc]. destruct (Hk oc Hc) as [Hc' He].
  unfold view. rewrite Hc, Hc'. simpl. by rewrite He.
Qed.

(** A field other than the middleware slice is assigned. *)
Lemma field_update h r o o' :
  heap_ok h -> routers h !! r = Some o ->
  o_middleware o' = o_middleware o -> o_subrouters o' = o_subrouters o ->
  heap_ok (setRouter h r o')
  /\ (forall c, c <> r -> kept h (setRouter h r o') c)
  /\ elems (setRouter h r o') (o_middleware o') = elems h (o_middleware o).
Proof.
  intros Hok Hr Hmw Hsubs.
  destruct (Hok r o Hr) as (_ & Hsl & _ & Hch).
  destruct (heap_ok_update h h r o o') as [Hok' Hkept]; try done.
  - by rewrite Hmw.
  - left. by rewrite Hmw.
  - rewrite Hsubs. apply Hch.
  - split_and!; [done | | by rewrite Hmw].
    intros c Hne oc Hc. by apply Hkept.
Qed.

(** A struct is allocated whose slice [append] has built from the empty one. *)
Lemma heap_ok_alloc h xs h1 s sub :
  heap_ok h -> append grow h emptySlice xs = (h1, s) ->
  o_middleware sub = s -> o_subrouters sub = ∅ ->
  heap_ok (mkHeap (<[next h1 := sub]> (routers h1)) (arrays h1) (S (next h1)))
  /\ routers h !! next h1 = None
  /\ next h <= next h1
  /\ elems h1 s = xs
  /\ forall c, kept h (mkHeap (<[next h1 := sub]> (routers h1)) (arrays h1)
                              (S (next h1))) c.
Proof.
  intros Hok Happ Hmw Hsubs.
  destruct (append_spec h emptySlice xs h1 s (slice_ok_empty h) Happ)
    as (Hel & Hsl & Hrs & Hnext & Hptr & Hfr).
  assert (Hfree : routers h !! next h1 = None).
  { destruct (routers h !! next h1) as [o|] eqn:E; [|done].
    destruct (Hok _ _ E) as (Hlt & _). lia. }
  assert (Hold : forall c oc, routers h !! c = Some oc ->
            c <> next h1
            /\ slice_ok h1 (o_middleware oc)
            /\ elems h1 (o_middleware oc) = elems h (o_middleware oc)).
  { intros c oc Hc. destruct (Hok c oc Hc) as (Hlt & Hs & _).
    split; [lia|]. apply slice_ok_frame; [done | done |].
    intros l Hl. apply Hfr; [done|]. destruct Hs as (_ & _ & Hp). by apply Hp. }
  split_and!; [| done | done | done |].
  - intros r0 o0 H0. simpl in H0.
    destruct (decide (r0 = next h1)) as [->|Hne].
    + rewrite lookup_insert_eq in H0. simplify_eq. split_and!.
      * simpl. lia.
      * destruct Hsl as (Hl1 & Hl2 & Hl3). split_and!; [done | done |].
        intros l Hl. specialize (Hl3 l Hl). simpl. lia.
      * intros r' oo l Hne' Hoo Hl. simpl in Hoo.
        rewrite lookup_insert_ne, Hrs in Hoo by done.
        destruct (Hok r' oo Hoo) as (_ & (_ & _ & Hp) & _).
        destruct Hptr as [Hnil | Hfresh].
        -- rewrite Hnil in Hl. done.
        -- rewrite Hfresh in Hl. simplify_eq. intros Hl'.
           specialize (Hp _ Hl'). lia.
      * intros k c. rewrite Hsubs, lookup_empty. done.
    + rewrite lookup_insert_ne, Hrs in H0 by done.
      destruct (Hok r0 o0 H0) as (Hlt & Hs & Hsh & Hch).
      destruct (Hold r0 o0 H0) as (_ & (Hl1 & Hl2 & Hl3) & _).
      split_and!.
      * simpl. lia.
      * split_and!; [done | done |].
        intros l Hl. specialize (Hl3 l Hl). simpl. lia.
      * intros r' oo l Hne' Hoo Hl. simpl in Hoo.
        destruct (decide (r' = next h1)) as [->|Hne2].
        -- rewrite lookup_insert_eq in Hoo. simplify_eq.
           destruct Hptr as [Hnil | Hfresh].
           ++ rewrite Hnil. done.
           ++ rewrite Hfresh. destruct Hs as (_ & _ & Hp).
              specialize (Hp l Hl). intros [= ?]. lia.
        -- rewrite lookup_insert_ne, Hrs in Hoo by done.
           by apply (Hsh r' oo l).
      * intros k c Hk. destruct (Hch k c Hk) as [Hlt' [oc Hc]].
        split; [done|]. simpl.
        destruct (Hold c oc Hc) as (Hne3 & _).
        rewrite lookup_insert_ne, Hrs by done. by exists oc.
  - intros c oc Hc. destruct (Hold c oc Hc) as (Hne & _ & He).
    split; [|done]. simpl. by rewrite lookup_insert_ne, Hrs.
Qed.

Lemma Use_spec h r mws h' :
  heap_ok h -> Use grow h r mws = Ok h' ->
  heap_ok h' /\ next h <= next h'
  /\ (forall c, c <> r -> kept h h' c)
  /\ exists o o',
      routers h !! r = Some o /\ routers h' !! r = Some o'
      /\ elems h' (o_middleware o') = elems h (o_middleware o) ++ mws
      /\ o_routes o' = o_routes o /\ o_subrouters o' = o_subrouters o
      /\ o_NotFoundHandler o' = o_NotFoundHandler o
      /\ o_MaxRequestBodySize o' = o_MaxRequestBodySize o.
Proof.
  intros Hok HU. unfold Use in HU.
  destruct (routers h !! r) as [o|] eqn:Hr; [|done].
  destruct (append grow h (o_middleware o) mws) as [h1 s] eqn:Happ.
  injection HU as <-.
  destruct (Hok r o Hr) as (Hlt & Hsl & Hsh & Hch).
  destruct (append_spec h _ mws h1 s Hsl Happ)
    as (Hel & Hsl' & Hrs & Hnext & Hptr & Hfr).
  destruct (heap_ok_update h h1 r o
              (mkObj (o_routes o) s (o_subrouters o) (o_NotFoundHandler o)
                     (o_MaxRequestBodySize o))) as [Hok' Hkept]; try done.
  split_and!; [done | simpl; lia | intros c Hne oc Hc; by apply Hkept |].
  eexists o, _. split_and!; [done | simpl; by rewrite lookup_insert_eq | | | | |];
    done.
Qed.

Lemma setNotFoundHandler_spec h r f h' :
  heap_ok h -> setNotFoundHandler h r f = Ok h' ->
  heap_ok h' /\ next h <= next h'
  /\ (forall c, c <> r -> kept h h' c)
  /\ exists o o',
      routers h !! r = Some o /\ routers h' !! r = Some o'
      /\ elems h' (o_middleware o') = elems h (o_middleware o)
      /\ o_routes o' = o_routes o /\ o_subrouters o' = o_subrouters o
      /\ o_NotFoundHandler o' = f
      /\ o_MaxRequestBodySize o' = o_MaxRequestBodySize o.
Proof.
  intros Hok HS. unfold setNotFoundHandler in HS.
  destruct (routers h !! r) as [o|] eqn:Hr; [|done]. injection HS as <-.
  destruct (field_update h r o
              (mkObj (o_routes o) (o_middleware o) (o_subrouters o) f
                     (o_MaxRequestBodySize o))) as (Hok' & Hkept & Hel); try done.
  split_and!; [done | done | done |].
  eexists o, _. split_and!; [done | simpl; by rewrite lookup_insert_eq | | | | |];
    done.
Qed.

Lemma HandleRoute_spec h r m tpl f h' :
  heap_ok h -> HandleRoute h r m tpl f = Ok h' ->
  heap_ok h' /\ next h <= next h'
  /\ (forall c, c <> r -> kept h h' c)
  /\ exists o o' rt,
      routers h !! r = Some o /\ routers h' !! r = Some o'
      /\ newRoute m tpl f = Ok rt
      /\ o_routes o' = o_routes o ++ [rt]
      /\ elems h' (o_middleware o') = elems h (o_middleware o)
      /\ o_subrouters o' = o_subrouters o
      /\ o_NotFoundHandler o' = o_NotFoundHandler o
      /\ o_MaxRequestBodySize o' = o_MaxRequestBodySize o.
Proof.
  intros Hok HH. unfold HandleRoute in HH.
  destruct (newRoute m tpl f) as [rt| |] eqn:Hrt; [|done|done]. simpl in HH.
  destruct (routers h !! r) as [o|] eqn:Hr; [|done]. injection HH as <-.
  destruct (field_update h r o
              (mkObj (o_routes o ++ [rt]) (o_middleware o) (o_subrouters o)
                     (o_NotFoundHandler o) (o_MaxRequestBodySize o)))
    as (Hok' & Hkept & Hel); try done.
  split_and!; [done | done | done |].
  eexists o, _, rt.
  split_and!; [done | simpl; by rewrite lookup_insert_eq | | | | | |]; done.
Qed.

(** [Subrouter]: the child is allocated after its parent; either it was
    there and the heap is as it was, or it is new. *)
Lemma Subrouter_spec h p key h1 c :
  heap_ok h -> Subrouter grow h p key = Ok (h1, c) ->
  heap_ok h1 /\ next h <= next h1 /\ p < c
  /\ (forall r, r <> p -> kept h h1 r)
  /\ exists o,
      routers h !! p = Some o
      /\ ((o_subrouters o !! key = Some c /\ h1 = h)
          \/ (o_subrouters o !! key = None
              /\ routers h !! c = None
              /\ routers h1 !! p
                 = Some (mkObj (o_routes o) (o_middleware o)
                               (<[key := c]> (o_subrouters o))
                               (o_NotFoundHandler o) (o_MaxRequestBodySize o))
              /\ elems h1 (o_middleware o) = elems h (o_middleware o)
              /\ exists oc,
                  routers h1 !! c = Some oc
                  /\ o_routes oc = [] /\ o_subrouters oc = ∅
                  /\ o_NotFoundHandler oc = o_NotFoundHandler o
                  /\ o_MaxRequestBodySize oc = 0%Z
                  /\ elems h1 (o_middleware oc) = elems h (o_middleware o))).
Proof.
  intros Hok HS. unfold Subrouter in HS.
  destruct (routers h !! p) as [o|] eqn:Hp; [|done].
  destruct (Hok p o Hp) as (Hlt & Hsl & Hsh & Hch).
  destruct (o_subrouters o !! key) as [c0|] eqn:Hkey.
  - simplify_eq. destruct (Hch key c Hkey) as [Hpc _].
    split_and!; [done | done | done | by intros r _ oc Hc |].
    exists o. split; [done|]. by left.
  - destruct (append grow h emptySlice (elems h (o_middleware o))) as [h0 s] eqn:Happ.
    injection HS as <- <-.
    set (sub := mkObj [] s ∅ (o_NotFoundHandler o) 0%Z).
    destruct (heap_ok_alloc h _ h0 s sub Hok Happ eq_refl eq_refl)
      as (Hok2 & Hfree & Hnext & Hel & Hkept2).
    set (h2 := mkHeap (<[next h0 := sub]> (routers h0)) (arrays h0) (S (next h0)))
      in *.
    destruct (Hkept2 p o Hp) as [Hp2 Help].
    destruct (Hok2 p o Hp2) as (_ & Hsl2 & _ & Hch2).
    assert (Hsubs : forall k c,
               <[key := next h0]> (o_subrouters o) !! k = Some c ->
               p < c /\ is_Some (routers h2 !! c)).
    { intros k c Hk. destruct (decide (k = key)) as [->|Hne].
      - rewrite lookup_insert_eq in Hk. simplify_eq. split; [lia|].
        unfold h2. simpl. by rewrite lookup_insert_eq.
      - rewrite lookup_insert_ne in Hk by done. by apply (Hch2 k). }
    destruct (heap_ok_update h2 h2 p o
                (mkObj (o_routes o) (o_middleware o)
                       (<[key := next h0]> (o_subrouters o))
                       (o_NotFoundHandler o) (o_MaxRequestBodySize o))
                Hok2 Hp2 eq_refl (Nat.le_refl _) Hsl2 (or_introl eq_refl)
                (fun _ _ _ => eq_refl) Hsubs) as [Hok3 Hkept3].
    assert (Hpc : p <> next h0) by lia.
    split_and!; [done | simpl; lia | lia | |].
    + intros r Hne. eapply kept_trans; [apply Hkept2|].
      intros oc Hc. by apply Hkept3.
    + exists o. split; [done|]. right.
      split_and!; [done | done | simpl; by rewrite lookup_insert_eq | done |].
      exists sub. split_and!; try done.
      simpl. rewrite lookup_insert_ne by done. by rewrite lookup_insert_eq.
Qed.

Lemma apply_change_frame h r ch h' :
  heap_ok h -> apply_change grow h r ch = Ok h' ->
  heap_ok h' /\ next h <= next h' /\ forall c, c <> r -> kept h h' c.
Proof.
  intros Hok Hch. destruct ch as [mws | f | m tpl f | key]; simpl in Hch.
  - by destruct (Use_spec _ _ _ _ Hok Hch) as (? & ? & ? & _).
  - by destruct (setNotFoundHandler_spec _ _ _ _ Hok Hch) as (? & ? & ? & _).
  - by destruct (HandleRoute_spec _ _ _ _ _ _ Hok Hch) as (? & ? & ? & _).
  - destruct (Subrouter grow h r key) as [[h1 c]| |] eqn:HS; [|done|done].
    simpl in Hch. simplify_eq.
    by destruct (Subrouter_spec _ _ _ _ _ Hok HS) as (? & ? & _ & ? & _).
Qed.

(** Changes made through [r] leave every other allocated router as it was. *)
Lemma apply_changes_frame cs : forall h r h',
  heap_ok h -> apply_changes grow h r cs = Ok h' ->
  heap_ok h' /\ next h <= next h' /\ forall c, c <> r -> kept h h' c.
Proof.
  induction cs as [|ch cs IH]; intros h r h' Hok Hcs; simpl in Hcs.
  - simplify_eq. split_and!; [done | done |]. by intros c _ oc Hc.
  - destruct (apply_change grow h r ch) as [h1| |] eqn:Hch; [|done|done]. simpl in Hcs.
    destruct (apply_change_frame _ _ _ _ Hok Hch) as (Hok1 & Hn1 & Hk1).
    destruct (IH _ _ _ Hok1 Hcs) as (Hok2 & Hn2 & Hk2).
    split_and!; [done | lia |].
    intros c Hne. eapply kept_trans; [by apply Hk1 | by apply Hk2].
Qed.

Lemma heap_ok_empty : heap_ok emptyHeap.
Proof. intros r o H. simpl in H. by rewrite lookup_empty in H. Qed.

(** [NewRouter()] allocates a router with the defaults. *)
Lemma NewRouter_nil h h' r :
  heap_ok h -> NewRouter h [] = Ok (h', r) ->
  heap_ok h' /\ r = next h /\ routers h !! r = None
  /\ routers h' !! r = Some (mkObj [] emptySlice ∅ NotFound 0%Z)
  /\ forall c, kept h h' c.
Proof.
  intros Hok HN. unfold NewRouter in HN. simpl in HN. simplify_eq.
  destruct (heap_ok_alloc h [] h emptySlice (mkObj [] emptySlice ∅ NotFound 0%Z)
              Hok eq_refl eq_refl eq_refl) as (Hok' & Hfree & _ & _ & Hkept).
  split_and!; [done | done | done | simpl; by rewrite lookup_insert_eq | done].
Qed.

End StoreLemmas.

Lemma heap_ok_rootHeap : heap_ok rootHeap.
Proof.
  destruct (NewRouter_nil grow2 emptyHeap rootHeap 0 heap_ok_empty eq_refl)
    as [H _].
  exact H.
Qed.

(** ** Configuration *)

(** C6. Middleware order.  [Use] only appends: the router's middleware list
    becomes the old list followed by the arguments, its other fields and the
    other routers stay as they were.  At dispatch the selected route's
    handler is wrapped from the last entry to the first, so the chain is
    [m1 (m2 (... (mn handler)))]: the first-registered entry is outermost,
    the last-registered one is applied to the handler itself. *)
Theorem middleware_order
        (grow : nat -> nat -> nat) (hp : heap) (r : loc)
        (mws : list Middleware) (hp' : heap) (o : RouterObj)
        (Hok : heap_ok hp) (Hr : routers hp !! r = Some o)
        (Huse : Use grow hp r mws = Ok hp') :
  exists o',
    routers hp' !! r = Some o'
    /\ elems hp' (o_middleware o') = elems hp (o_middleware o) ++ mws
    /\ o_routes o' = o_routes o /\ o_subrouters o' = o_subrouters o
    /\ o_NotFoundHandler o' = o_NotFoundHandler o
    /\ o_MaxRequestBodySize o' = o_MaxRequestBodySize o
    /\ (forall c, c <> r -> kept hp hp' c)
    /\ (forall rs nf w req rt ps,
          scan rs (Method req) (Path (url req)) false = Ok (Selected rt ps) ->
          serveRoutes rs (elems hp' (o_middleware o')) nf w req
          = foldr (fun m k => m k) (foldr (fun m k => m k) (handler rt) mws)
                  (elems hp (o_middleware o)) w (attach req rt ps))
    /\ (forall mw h, wrap mw h = foldr (fun m k => m k) h mw)
    /\ (forall a rest h, wrap (a :: rest) h = a (wrap rest h))
    /\ (forall mw b h, wrap (mw ++ [b]) h = wrap mw (b h)).
Proof.
  destruct (Use_spec grow hp r mws hp' Hok Huse)
    as (_ & _ & Hkept & o0 & o' & Hr0 & Hr' & Hel & Hrt & Hsb & Hnf & Hmx).
  rewrite Hr in Hr0. simplify_eq.
  exists o'. split_and!; try done.
  - intros rs nf w req rt ps Hs. unfold serveRoutes. rewrite Hs. simpl.
    by rewrite wrap_foldr, Hel, foldr_app.
  - apply wrap_foldr.
  - intros a rest h. by rewrite !wrap_foldr.
  - intros mw b h. by rewrite !wrap_foldr, foldr_app.
Qed.

Lemma middleware_order_witness :
  Use grow2 rootHeap 0 [tag "A"; tag "B"] = Ok heapAB
  /\ view heapAB 0 = Some ([tag "A"; tag "B"], NotFound)
  /\ outcome (serveRoutes [helloRoute] [tag "A"; tag "B"] NotFound NewRecorder
                          (get "/hello"))
     = Some (200%Z, "A>B>Hello, world!<B<A").
Proof.
  assert (Huse : Use grow2 rootHeap 0 [tag "A"; tag "B"] = Ok heapAB)
    by reflexivity.
  split; [exact Huse|].
  destruct (middleware_order grow2 rootHeap 0 [tag "A"; tag "B"] heapAB _
              heap_ok_rootHeap eq_refl Huse)
    as (o' & Ho' & Hel & _ & _ & Hnf & _ & _ & Hserve & _).
  split.
  - unfold view. rewrite Ho'. unfold fmap, option_fmap, option_map.
    rewrite Hel, Hnf. reflexivity.
  - vm_compute; reflexivity.
Defined.

(** [use(A, B)] through the API, then a matching request: A runs before B
    before the handler, and B before A on the way out. *)
Example use_A_B :
  builtServes fst (get "/hello") = Some (200%Z, "A>B>Hello, world!<B<A").
Proof. vm_compute; reflexivity. Qed.

(** C8. Subrouter snapshot.  [Subrouter key] returns the child already
    registered under [key], the heap being left as it is, or allocates one:
    no routes, no children, the parent's not-found handler, and a middleware
    list with the parent's current elements in an array of its own.  The
    child is not the parent, a second call returns the same child, and
    whatever is then changed through the parent (middleware appended, the
    not-found handler replaced, routes or further children added), the child
    keeps its middleware list and its not-found handler. *)
Theorem subrouter_snapshot
        (grow : nat -> nat -> nat) (h : heap) (p : loc) (key : string)
        (h1 : heap) (c : loc)
        (Hok : heap_ok h) (Hsub : Subrouter grow h p key = Ok (h1, c)) :
  (exists o,
      routers h !! p = Some o
      /\ ((o_subrouters o !! key = Some c /\ h1 = h)
          \/ (o_subrouters o !! key = None
              /\ routers h !! c = None
              /\ view h1 c = Some (elems h (o_middleware o), o_NotFoundHandler o)
              /\ view h1 p = view h p
              /\ exists oc,
                  routers h1 !! c = Some oc
                  /\ o_routes oc = [] /\ o_subrouters oc = ∅
                  /\ forall l, ptr (o_middleware oc) = Some l ->
                               ptr (o_middleware o) <> Some l)))
  /\ p <> c
  /\ is_Some (view h1 c)
  /\ Subrouter grow h1 p key = Ok (h1, c)
  /\ (forall cs h2,
        apply_changes grow h1 p cs = Ok h2 -> view h2 c = view h1 c).
Proof.
  destruct (Subrouter_spec grow h p key h1 c Hok Hsub)
    as (Hok1 & Hnext & Hpc & Hkept & o & Hp & Hcase).
  assert (Hc : is_Some (routers h1 !! c)).
  { destruct Hcase as [[Hk ->] | (_ & _ & _ & _ & oc & Hoc & _)].
    - destruct (Hok p o Hp) as (_ & _ & _ & Hch). by apply (Hch key).
    - by exists oc. }
  split_and!.
  - exists o. split; [done|].
    destruct Hcase as [Hold | (Hk & Hfree & Hp1 & Help & oc & Hoc & Hrt & Hsb
                               & Hnf & Hmx & Helc)]; [by left | right].
    split_and!; [done | done | | |].
    + unfold view. rewrite Hoc. simpl. by rewrite Helc, Hnf.
    + unfold view. rewrite Hp1, Hp. simpl. by rewrite Help.
    + exists oc. split_and!; [done | done | done |].
      intros l Hl. destruct (Hok1 c oc Hoc) as (_ & _ & Hsh & _).
      apply (Hsh p _ l) in Hp1; [done | lia | done].
  - lia.
  - destruct Hc as [oc Hoc]. unfold view. rewrite Hoc. by eexists.
  - destruct Hcase as [[Hk ->] | (_ & _ & Hp1 & _)].
    + unfold Subrouter. by rewrite Hp, Hk.
    + unfold Subrouter. rewrite Hp1. simpl. by rewrite lookup_insert_eq.
  - intros cs h2 Hcs.
    destruct (apply_changes_frame grow cs h1 p h2 Hok1 Hcs) as (_ & _ & Hk).
    apply kept_view; [apply Hk; lia | done].
Qed.

Lemma subrouter_snapshot_witness :
  Use grow2 rootHeap 0 [tag "A"] = Ok heapA
  /\ Subrouter grow2 heapA 0 "/api" = Ok heapApi
  /\ apply_changes grow2 heapApi.1 0 laterChanges = Ok heapLater
  /\ view heapLater 0 = Some ([tag "A"; tag "B"], say "gone")
  /\ view heapLater heapApi.2 = view heapApi.1 heapApi.2.
Proof.
  assert (Huse : Use grow2 rootHeap 0 [tag "A"] = Ok heapA) by reflexivity.
  assert (Hsub : Subrouter grow2 heapA 0 "/api" = Ok (heapApi.1, heapApi.2))
    by reflexivity.
  assert (Hlater : apply_changes grow2 heapApi.1 0 laterChanges = Ok heapLater)
    by reflexivity.
  split; [exact Huse|]. split; [reflexivity|]. split; [exact Hlater|].
  split; [vm_compute; reflexivity|].
  destruct (Use_spec grow2 rootHeap 0 [tag "A"] heapA heap_ok_rootHeap Huse)
    as (Hok & _).
  destruct (subrouter_snapshot grow2 heapA 0 "/api" heapApi.1 heapApi.2 Hok Hsub)
    as (_ & _ & _ & _ & Hframe).
  exact (Hframe laterChanges heapLater Hlater).
Defined.

(** The parent of [built] got B and a new not-found handler after the child
    was made: the child still runs A alone and answers 404 by the default
    handler, while the parent runs A then B and answers by the new one. *)
Example child_keeps_snapshot :
  builtServes fst (get "/api/hello") = Some (200%Z, "A>Hello, world!<A")
  /\ builtServes snd (get "/hello") = Some (200%Z, "A>Hello, world!<A")
  /\ builtServes fst (get "/api/zzz")
     = Some (404%Z, "404 page not found" +:+ newline)
  /\ builtServes fst (get "/zzz") = Some (200%Z, "gone").
Proof. repeat split; vm_compute; reflexivity. Qed.

(** * Further properties of the code *)

(** ** Dispatch that cannot panic *)

Lemma Router_nested_ind (P : Router -> Prop) :
  (forall rs mw subs nf max,
      Forall (fun kc : string * Router => P kc.2) subs ->
      P (mkRouter rs mw subs nf max)) ->
  forall r, P r.
Proof.
  intros H. fix IH 1. intros [rs mw subs nf max]. apply H.
  induction subs as [|[k c] subs IHs]; constructor; [apply IH | apply IHs].
Qed.

Lemma router_ok_children rs mw subs nf max :
  router_ok (mkRouter rs mw subs nf max) ->
  Forall (fun kc : string * Router => router_ok kc.2) subs.
Proof.
  intros (_ & _ & _ & Hsubs).
  induction subs as [|[k c] subs IH]; constructor; [apply Hsubs | apply IH, Hsubs].
Qed.

Lemma scan_returns rs m p : Forall route_ok rs -> forall b,
  exists sc, scan rs m p b = Ok sc
             /\ match sc with
                | Selected rt _ => rt ∈ rs
                | Unmatched _ => True
                end.
Proof.
  induction 1 as [|rt rs [Hwf _] _ IH]; intros b; simpl.
  - by eexists.
  - destruct (String.eqb (method rt) m); simpl.
    + destruct (FindStringSubmatch (path rt) p) as [mm|] eqn:Hm.
      * destruct (Route_match_some rt p Hwf) as [ps Hps]; [by rewrite Hm|].
        rewrite Hps. simpl. eexists. split; [done|]. by left.
      * rewrite (proj2 (Route_match_no_match rt p) Hm). simpl.
        destruct (IH b) as (sc & -> & Hsc). exists sc. split; [done|].
        destruct sc; [by right | done].
    + destruct (IH true) as (sc & -> & Hsc). exists sc. split; [done|].
      destruct sc; [by right | done].
Qed.

Lemma wrap_total mw h :
  Forall (fun m : Middleware => forall h, total h -> total (m h)) mw ->
  total h -> total (wrap mw h).
Proof.
  intros Hmw Hh. rewrite wrap_foldr.
  induction Hmw as [|m mw Hm _ IH]; simpl; [done | by apply Hm].
Qed.

(** X1. With a submatch for every name of every route, handlers that return
    and middleware that keeps them returning, [ServeHTTP] returns: no index
    is out of range in [match], and nothing else in dispatch can panic. *)
Theorem ServeHTTP_never_panics (r : Router) (Hok : router_ok r)
        (w : ResponseWriter) (req : Request) :
  exists w', ServeHTTP r w req = Ok w'.
Proof.
  revert Hok w req. induction r as [rs mw subs nf max IH] using Router_nested_ind.
  intros Hok w req. pose proof (router_ok_children _ _ _ _ _ Hok) as Hsubs.
  destruct Hok as (Hrs & Hmw & Hnf & _).
  rewrite ServeHTTP_unfold. simpl.
  destruct (limitBody max req) as [req1|]; [|by eexists].
  induction subs as [|[k c] subs IHs]; simpl.
  - unfold serveRoutes.
    destruct (scan_returns rs (Method req1) (Path (url req1)) Hrs false)
      as (sc & -> & Hsc). simpl.
    destruct sc as [rt ps|[|]]; [| by eexists | apply Hnf].
    apply wrap_total; [done|].
    by apply (proj1 (Forall_forall _ _) Hrs rt).
  - apply Forall_cons in IH as [IHc IH]. apply Forall_cons in Hsubs as [Hc Hsubs].
    destruct (claims k req1) as [req2|]; [by apply IHc | by apply IHs].
Qed.

Lemma ServeHTTP_never_panics_witness :
  router_ok parent1
  /\ exists w', ServeHTTP parent1 NewRecorder (get "/api/users/1") = Ok w'.
Proof.
  assert (Hecho : forall k, total (echo k)) by (intros k w req; by eexists).
  assert (Hsay : forall t, total (say t)) by (intros k w req; by eexists).
  assert (Hnf : total NotFound) by (intros w req; by eexists).
  assert (Hok : router_ok parent1).
  { repeat split; try done; repeat constructor; simpl; try done;
      try (vm_compute; lia). }
  split; [exact Hok|]. apply (ServeHTTP_never_panics parent1 Hok).
Defined.

(** ** [Route.match] out of range *)

Lemma fill_panics m : forall paramNames i acc,
  paramNames <> [] -> length m <= i + length paramNames ->
  exists msg, fill m paramNames i acc = Panic msg.
Proof.
  induction paramNames as [|name rest IH]; intros i acc Hne Hlen; [done|].
  simpl in *. destruct (m !! (i + 1)) as [v|] eqn:Hv; [|by eexists].
  apply lookup_lt_Some in Hv. apply IH; [|lia].
  intros ->. simpl in *. lia.
Qed.

(** X2. A route with more names than its pattern has groups makes [match]
    index [match[i+1]] out of range on every path the pattern matches; the
    router does not recover, so dispatch of such a request panics. *)
Theorem match_panics_past_last_group
        (r : Route) (p : string)
        (Hbad : NumSubexp (path r) < length (params r))
        (Hm : FindStringSubmatch (path r) p <> None) :
  exists msg,
    Route_match r p = Panic msg
    /\ forall later mw nf w req,
        method r = Method req -> p = Path (url req) ->
        serveRoutes (r :: later) mw nf w req = Panic msg
        /\ ServeHTTP (mkRouter (r :: later) mw [] nf 0) w req = Panic msg.
Proof.
  unfold Route_match.
  destruct (FindStringSubmatch (path r) p) as [m|] eqn:E; [|done].
  pose proof (FindStringSubmatch_length _ _ _ E) as Hl.
  destruct (fill_panics m (params r) 0 ∅) as [msg Hmsg].
  - intros Hnil. rewrite Hnil in Hbad. simpl in Hbad. lia.
  - lia.
  - exists msg. rewrite Hmsg. split; [done|].
    intros later mw nf w req Hmeth ->.
    assert (Hs : serveRoutes (r :: later) mw nf w req = Panic msg).
    { unfold serveRoutes. simpl. rewrite (proj2 (String.eqb_eq _ _) Hmeth).
      simpl. unfold Route_match. by rewrite E, Hmsg. }
    split; [done|]. by rewrite ServeHTTP_unfold.
Qed.
Lemma match_panics_past_last_group_witness :
  NumSubexp (path brokenRoute) < length (params brokenRoute)
  /\ exists msg, Route_match brokenRoute "/hello" = Panic msg.
Proof.
  assert (Hbad : NumSubexp (path brokenRoute) < length (params brokenRoute))
    by (vm_compute; lia).
  split; [exact Hbad|].
  destruct (match_panics_past_last_group brokenRoute "/hello" Hbad)
    as (msg & Hmsg & _); [vm_compute; discriminate|].
  by exists msg.
Defined.

(** ** Registration order is scan order *)

Lemma scan_app rs rs' m p : forall b,
  scan (rs ++ rs') m p b
  = match scan rs m p b with
    | Ok (Unmatched b') => scan rs' m p b'
    | other => other
    end.
Proof.
  induction rs as [|r rs IH]; intros b; simpl; [done|].
  destruct (String.eqb (method r) m); simpl; [|apply IH].
  destruct (Route_match r p) as [[ps|]| |]; simpl; [done | apply IH | done | done].
Qed.

(** X3. [HandleRoute] puts the new route after the ones the router has and
    changes nothing else: the router keeps its middleware slice, its
    children, its not-found handler and its limit, every other router and
    every array is as it was, and nothing is allocated.  So a request an
    older route takes is still taken by it, with the same parameters; only a
    request no older route takes comes to the new route, the mismatch flag
    carried over. *)
Theorem HandleRoute_appends
        (h : heap) (r : loc) (m tpl : string) (f : Handler) (h' : heap)
        (Hok : heap_ok h) (Hreg : HandleRoute h r m tpl f = Ok h') :
  exists o o' rt,
    routers h !! r = Some o /\ routers h' !! r = Some o'
    /\ newRoute m tpl f = Ok rt
    /\ o_routes o' = o_routes o ++ [rt]
    /\ view h' r = view h r
    /\ (forall c, c <> r -> kept h h' c)
    /\ (forall m0 p b rt0 ps,
          scan (o_routes o) m0 p b = Ok (Selected rt0 ps) ->
          scan (o_routes o') m0 p b = Ok (Selected rt0 ps))
    /\ (forall m0 p b b',
          scan (o_routes o) m0 p b = Ok (Unmatched b') ->
          scan (o_routes o') m0 p b = scan [rt] m0 p b')
    /\ Handle h r m tpl f = Ok h' /\ HandlerFunc h r m tpl f = Ok h'
    /\ o' = mkObj (o_routes o ++ [rt]) (o_middleware o) (o_subrouters o)
                  (o_NotFoundHandler o) (o_MaxRequestBodySize o)
    /\ (forall c, c <> r -> routers h' !! c = routers h !! c)
    /\ arrays h' = arrays h /\ next h' = next h.
Proof.
  destruct (HandleRoute_spec h r m tpl f h' Hok Hreg)
    as (_ & _ & Hkept & o & o' & rt & Hr & Hr' & Hrt & Hrs & Hel & _ & Hnf & _).
  assert (Hh' : h' = setRouter h r
                       (mkObj (o_routes o ++ [rt]) (o_middleware o) (o_subrouters o)
                              (o_NotFoundHandler o) (o_MaxRequestBodySize o))).
  { unfold HandleRoute in Hreg. rewrite Hrt in Hreg. cbn [mbind result_bind] in Hreg.
    rewrite Hr in Hreg. by injection Hreg as <-. }
  exists o, o', rt. split_and!; try done.
  - unfold view. rewrite Hr, Hr'. simpl. by rewrite Hel, Hnf.
  - intros m0 p b rt0 ps Hs. by rewrite Hrs, scan_app, Hs.
  - intros m0 p b b' Hs. by rewrite Hrs, scan_app, Hs.
  - rewrite Hh' in Hr'. simpl in Hr'. rewrite lookup_insert_eq in Hr'.
    by injection Hr' as <-.
  - intros c Hne. rewrite Hh'. simpl. by rewrite lookup_insert_ne.
  - by rewrite Hh'.
  - by rewrite Hh'.
Qed.

(** /users/:id and then /users/me on the same router: the table holds both in
    that order, and /users/me is still taken by the older route. *)
Lemma HandleRoute_appends_witness :
  exists h1 h2,
    HandleRoute rootHeap 0 "GET" "/users/:id" (echo "id") = Ok h1
    /\ HandleRoute h1 0 "GET" "/users/me" (say "profile") = Ok h2
    /\ routers h2 !! 0
       = Some (mkObj [usersRoute; usersMe] emptySlice ∅ NotFound 0%Z)
    /\ scan [usersRoute; usersMe] "GET" "/users/me" false
       = Ok (Selected usersRoute {["id" := "me"]}).
Proof.
  pose (h1 := returned rootHeap
                (HandleRoute rootHeap 0 "GET" "/users/:id" (echo "id"))).
  pose (h2 := returned h1 (HandleRoute h1 0 "GET" "/users/me" (say "profile"))).
  assert (Hreg1 : HandleRoute rootHeap 0 "GET" "/users/:id" (echo "id") = Ok h1)
    by reflexivity.
  assert (Hreg2 : HandleRoute h1 0 "GET" "/users/me" (say "profile") = Ok h2)
    by reflexivity.
  exists h1, h2. split; [exact Hreg1|]. split; [exact Hreg2|].
  destruct (HandleRoute_spec rootHeap 0 "GET" "/users/:id" (echo "id") h1
              heap_ok_rootHeap Hreg1) as (Hok1 & _).
  destruct (HandleRoute_appends h1 0 "GET" "/users/me" (say "profile") h2
              Hok1 Hreg2)
    as (o & o' & rt & Hr & Hr' & Hrt & Hrs & _ & _ & Hsel & _ & _ & _ & Ho' & _).
  assert (Ho : o = mkObj [usersRoute] emptySlice ∅ NotFound 0%Z).
  { assert (H : routers h1 !! 0 = Some (mkObj [usersRoute] emptySlice ∅ NotFound 0%Z))
      by reflexivity.
    rewrite H in Hr. by injection Hr as <-. }
  assert (Hme : rt = usersMe).
  { assert (H : newRoute "GET" "/users/me" (say "profile") = Ok usersMe)
      by reflexivity.
    rewrite H in Hrt. by injection Hrt as <-. }
  subst o rt. split; [by rewrite Hr', Ho'|].
  specialize (Hsel "GET" "/users/me" false usersRoute {["id" := "me"]}).
  rewrite Ho' in Hsel. apply Hsel. vm_compute. reflexivity.
Defined.

(** ** Children that take a request *)

Lemma probe_some {R} (serve : R -> Handler) fallback l w req :
  Exists (fun kc : string * R => claims kc.1 req <> None) l ->
  exists pre k c post req',
    l = pre ++ (k, c) :: post
    /\ Forall (fun kc : string * R => claims kc.1 req = None) pre
    /\ claims k req = Some req'
    /\ probe serve fallback l w req = serve c w req'.
Proof.
  induction l as [|[k c] l IH]; intros Hex; [by apply Exists_nil in Hex|].
  destruct (claims k req) as [req'|] eqn:Hk.
  - exists [], k, c, l, req'. simpl. by rewrite Hk.
  - apply Exists_cons in Hex as [Hex|Hex]; [done|].
    destruct (IH Hex) as (pre & k' & c' & post & req' & -> & Hpre & Hk' & Hp).
    exists ((k, c) :: pre), k', c', post, req'. simpl. rewrite Hk.
    split_and!; try done. by constructor.
Qed.

(** X4. A child registered under the empty string claims every request, since
    every path starts with the empty prefix: a router that has one never
    serves a request with its own routes or its own not-found handler. *)
Theorem empty_key_child_takes_all
        (r : Router) (c : Router) (w : ResponseWriter) (req req1 : Request)
        (Hchild : ("", c) ∈ subrouters r)
        (Hbody : limitBody (MaxRequestBodySize r) req = Some req1) :
  (exists req', claims "" req1 = Some req'
                /\ Path (url req') = Path (url req1)
                /\ Host (url req') = Host (url req1)
                /\ Method req' = Method req1)
  /\ exists k c' req',
      (k, c') ∈ subrouters r /\ claims k req1 = Some req'
      /\ ServeHTTP r w req = ServeHTTP c' w req'
      /\ forall rs nf,
          ServeHTTP (mkRouter rs (middleware r) (subrouters r) nf
                              (MaxRequestBodySize r)) w req
          = ServeHTTP r w req.
Proof.
  assert (Hclaims : exists req', claims "" req1 = Some req'
                /\ Path (url req') = Path (url req1)
                /\ Host (url req') = Host (url req1)
                /\ Method req' = Method req1).
  { unfold claims. destruct (String.eqb "" (Host (url req1))); [by eexists|].
    unfold Strings.HasPrefix, Strings.TrimPrefix, Strings.HasPrefix.
    destruct (Path (url req1)) eqn:Hp; simpl; eexists; split_and!;
      try done; simpl; by rewrite ?Hp. }
  split; [done|].
  destruct Hclaims as (req' & Hreq' & _).
  destruct (probe_some ServeHTTP
              (serveRoutes (routes r) (middleware r) (NotFoundHandler r))
              (subrouters r) w req1)
    as (pre & k & c' & post & req2 & Hsubs & Hpre & Hk & Hp).
  { apply Exists_exists. exists ("", c). split; [done|]. simpl. by rewrite Hreq'. }
  exists k, c', req2. split_and!.
  - rewrite Hsubs. apply elem_of_app. right. by left.
  - done.
  - by rewrite ServeHTTP_unfold, Hbody.
  - intros rs nf. rewrite !ServeHTTP_unfold. simpl. rewrite Hbody, Hp.
    rewrite Hsubs. by apply probe_first.
Qed.

Lemma empty_key_child_takes_all_witness :
  ServeHTTP (mkRouter [helloRoute] [] [("", apiChild)] NotFound 0) NewRecorder
            (get "/hello")
  = ServeHTTP apiChild NewRecorder (get "/hello").
Proof.
  destruct (empty_key_child_takes_all
              (mkRouter [helloRoute] [] [("", apiChild)] NotFound 0) apiChild
              NewRecorder (get "/hello") (get "/hello"))
    as (_ & k & c' & req' & Hin & Hk & Hserve & _);
    [by left | reflexivity |].
  apply list_elem_of_singleton in Hin. injection Hin as -> ->.
  rewrite Hserve. f_equal. vm_compute in Hk. by injection Hk as <-.
Defined.
(** ** Where middleware does not run *)

(** X5. Middleware wraps the handler of a selected route and nothing else: a
    request turned away for its body, one a child takes, and one that ends
    in 405 or in the not-found handler is answered as if the router had no
    middleware at all. *)
Theorem middleware_only_around_selected_route
        (rs : list Route) (mw : list Middleware) (subs : list (string * Router))
        (nf : Handler) (max : Z) (w : ResponseWriter) (req : Request)
        (Hnot : limitBody max req = None
                \/ (exists req1, limitBody max req = Some req1
                    /\ (Exists (fun kc => claims kc.1 req1 <> None) subs
                        \/ exists b, scan rs (Method req1) (Path (url req1)) false
                                     = Ok (Unmatched b)))) :
  ServeHTTP (mkRouter rs mw subs nf max) w req
  = ServeHTTP (mkRouter rs [] subs nf max) w req.
Proof.
  rewrite !ServeHTTP_unfold. simpl.
  destruct Hnot as [-> | (req1 & -> & [Hex | [b Hs]])]; [done | |].
  - destruct (probe_some ServeHTTP (serveRoutes rs mw nf) subs w req1 Hex)
      as (pre & k & c & post & req2 & -> & Hpre & Hk & ->).
    symmetry. by apply probe_first.
  - induction subs as [|[k c] subs IH]; simpl.
    + unfold serveRoutes. by rewrite Hs.
    + by destruct (claims k req1).
Qed.

Lemma middleware_only_around_selected_route_witness :
  outcome (ServeHTTP (mkRouter [helloRoute] [tag "A"] [] NotFound 0) NewRecorder
                     (get "/nowhere"))
  = Some (404%Z, "404 page not found" +:+ newline).
Proof.
  rewrite (middleware_only_around_selected_route [helloRoute] [tag "A"] []
             NotFound 0 NewRecorder (get "/nowhere")).
  - vm_compute. reflexivity.
  - right. exists (get "/nowhere"). split; [reflexivity|]. right.
    exists false. vm_compute. reflexivity.
Defined.

(** ** The matched route, seen from the handler *)

(** X6. The request a selected handler gets carries the route and the
    parameters: [CurrentRoute] returns the route, [Params] the captured
    map, and [PathTemplate] of the route gives back the template it was
    registered with, without error unless that template is empty; a request
    whose context has no route gives nil, for which [PathTemplate] reports
    an error. *)
Theorem CurrentRoute_round_trip
        (m tpl : string) (h : Handler) (rt : Route)
        (Hreg : newRoute m tpl h = Ok rt) :
  (forall req ps,
      CurrentRoute (attach req rt ps) = Ok (Some (ref rt))
      /\ Params (attach req rt ps) = ps
      /\ Method (attach req rt ps) = Method req
      /\ url (attach req rt ps) = url req
      /\ Body (attach req rt ps) = Body req)
  /\ (tpl <> "" -> PathTemplate (Some (ref rt)) = (tpl, None))
  /\ (tpl = "" -> PathTemplate (Some (ref rt)) = ("", Some "template is empty"))
  /\ PathTemplate None = ("", Some "route is nil, no template")
  /\ (forall req, Value (ctx req) RouteContextKey = None ->
                  CurrentRoute req = Ok None)
  /\ (forall rs mw nf w req ps,
        scan rs (Method req) (Path (url req)) false = Ok (Selected rt ps) ->
        mw = [] ->
        serveRoutes rs mw nf w req = h w (attach req rt ps)).
Proof.
  assert (Ht : template rt = tpl /\ handler rt = h).
  { unfold newRoute in Hreg. destruct (compileTemplate tpl) as [[re ns]| |]; [|done|done].
    simpl in Hreg. by injection Hreg as <-. }
  destruct Ht as [Ht Hh]. split_and!.
  - done.
  - intros Hne. unfold PathTemplate. simpl. rewrite Ht.
    by rewrite (proj2 (String.eqb_neq _ _) Hne).
  - intros ->. unfold PathTemplate. simpl. by rewrite Ht.
  - done.
  - intros req Hv. unfold CurrentRoute. by rewrite Hv.
  - intros rs mw nf w req ps Hs ->. unfold serveRoutes. rewrite Hs. simpl.
    by rewrite <- Hh.
Qed.

Lemma CurrentRoute_round_trip_witness :
  PathTemplate (Some (ref usersRoute)) = ("/users/:id", None).
Proof.
  apply (CurrentRoute_round_trip "GET" "/users/:id" (echo "id") usersRoute);
    [reflexivity | discriminate].
Defined.
(** ** Construction and options *)

(** X7. [NewRouter()] allocates a router with no route, no middleware, no
    child and no body limit, whose not-found handler is [http.NotFound]: it
    answers every request with 404, and leaves the rest of the heap alone. *)
Theorem NewRouter_defaults
        (h h' : heap) (r : loc) (order : gmap string loc -> list (string * loc))
        (n : nat)
        (Hnew : NewRouter h [] = Ok (h', r)) (Horder : order ∅ = []) :
  r = next h /\ next h' = S (next h) /\ arrays h' = arrays h
  /\ (forall c, c <> r -> routers h' !! c = routers h !! c)
  /\ snapshot order (S n) h' r = Some (mkRouter [] [] [] NotFound 0)
  /\ forall w req,
      ServeHTTP (mkRouter [] [] [] NotFound 0) w req
      = Ok (Error w "404 page not found" StatusNotFound).
Proof.
  unfold NewRouter in Hnew. simpl in Hnew. injection Hnew as <- <-.
  split_and!; try done.
  - intros c Hne. simpl. by rewrite lookup_insert_ne.
  - cbn [snapshot]. simpl routers. rewrite lookup_insert_eq. simpl.
    by rewrite Horder.
Qed.

Lemma NewRouter_defaults_witness :
  snapshot byKey 1 rootHeap 0 = Some (mkRouter [] [] [] NotFound 0).
Proof.
  apply (NewRouter_defaults emptyHeap rootHeap 0 byKey 0); reflexivity.
Defined.

(** X8. [WithNotFoundHandler] asserts that its argument is an
    [http.HandlerFunc]: given any other [http.Handler] the option panics, and
    so does [NewRouter] with it, whatever options follow; given a
    [HandlerFunc] it makes it the not-found handler. *)
Theorem WithNotFoundHandler_asserts_HandlerFunc
        (h : heap) (f : Handler) (rest : list RouterOption) :
  (exists msg, forall r, WithNotFoundHandler (IsOther f) r h = Panic msg)
  /\ (exists msg, NewRouter h (WithNotFoundHandler (IsOther f) :: rest) = Panic msg)
  /\ exists h',
      NewRouter h [WithNotFoundHandler (IsHandlerFunc f)] = Ok (h', next h)
      /\ (o_NotFoundHandler <$> routers h' !! next h) = Some f
      /\ (o_MaxRequestBodySize <$> routers h' !! next h) = Some 0%Z.
Proof.
  split_and!; [by eexists | by eexists |].
  unfold NewRouter. simpl. unfold setNotFoundHandler. simpl.
  rewrite lookup_insert_eq. simpl. eexists. split; [done|].
  simpl. by rewrite lookup_insert_eq.
Qed.

Lemma applyOptions_app a b r h :
  applyOptions (a ++ b) r h = (h1 ← applyOptions a r h; applyOptions b r h1).
Proof.
  revert h. induction a as [|o a IH]; intros h; simpl; [done|].
  destruct (o r h) as [h1| |]; simpl; [apply IH | done | done].
Qed.

(** X9. [NewRouter] applies its options in the order given, each to what the
    ones before it have made: a [WithMaxRequestBodySize] given last sets the
    limit whatever the earlier options did, and changes nothing else. *)
Theorem options_apply_in_order
        (h : heap) (opts : list RouterOption) (size : Z) (h' : heap) (r : loc)
        (Hnew : NewRouter h (opts ++ [WithMaxRequestBodySize size]) = Ok (h', r)) :
  exists h1 o,
    NewRouter h opts = Ok (h1, r)
    /\ routers h1 !! r = Some o
    /\ routers h' !! r
       = Some (mkObj (o_routes o) (o_middleware o) (o_subrouters o)
                     (o_NotFoundHandler o) size)
    /\ (forall c, c <> r -> routers h' !! c = routers h1 !! c)
    /\ arrays h' = arrays h1 /\ next h' = next h1.
Proof.
  unfold NewRouter in *. rewrite applyOptions_app in Hnew.
  destruct (applyOptions opts _ _) as [h1| |]; [|done|done]. simpl in Hnew.
  unfold WithMaxRequestBodySize in Hnew.
  destruct (routers h1 !! next h) as [o|] eqn:Ho; [|done].
  simpl in Hnew. injection Hnew as <- <-.
  exists h1, o. split_and!; try done.
  - simpl. by rewrite lookup_insert_eq.
  - intros c Hne. simpl. by rewrite lookup_insert_ne.
Qed.

Lemma options_apply_in_order_witness :
  exists h',
    NewRouter emptyHeap [WithMaxRequestBodySize 10; WithMaxRequestBodySize 1024]
    = Ok (h', 0)
    /\ (o_MaxRequestBodySize <$> routers h' !! 0) = Some 1024%Z.
Proof.
  pose (h' := (returned (emptyHeap, 0)
                 (NewRouter emptyHeap [WithMaxRequestBodySize 10;
                                       WithMaxRequestBodySize 1024])).1).
  assert (Hnew : NewRouter emptyHeap ([WithMaxRequestBodySize 10]
                                      ++ [WithMaxRequestBodySize 1024])
                 = Ok (h', 0)) by reflexivity.
  exists h'. split; [exact Hnew|].
  destruct (options_apply_in_order emptyHeap [WithMaxRequestBodySize 10] 1024
              h' 0 Hnew) as (h1 & o & _ & _ & Hr & _).
  by rewrite Hr.
Defined.

(** ** Registration for several methods *)

(** X10. [HandlerFuncWithMethods] registers one route for each method, in the
    order of the slice, all with the same pattern, names, handler and
    template, after the routes the router has; with no method it does
    nothing, and then even a template whose pattern [regexp] rejects goes
    unnoticed, while with a method such a template makes it panic.  Of a
    template whose pattern is outside the fragment modelled, nothing is
    said. *)
Theorem HandlerFuncWithMethods_routes
        (methods : list string) (tpl : string) (f : Handler)
        (re : Regexp) (paramNames : list string)
        (h : heap) (r : loc) (o : RouterObj)
        (Hr : routers h !! r = Some o)
        (Hc : compileTemplate tpl = Ok (re, paramNames)) :
  (exists h',
      HandlerFuncWithMethods h r methods tpl f = Ok h'
      /\ routers h' !! r
         = Some (mkObj (o_routes o
                          ++ map (fun m => mkRoute re m f paramNames tpl) methods)
                       (o_middleware o) (o_subrouters o)
                       (o_NotFoundHandler o) (o_MaxRequestBodySize o))
      /\ (forall c, c <> r -> routers h' !! c = routers h !! c)
      /\ arrays h' = arrays h /\ next h' = next h)
  /\ (forall tpl', HandlerFuncWithMethods h r [] tpl' f = Ok h)
  /\ (forall tpl' msg m rest,
        compileTemplate tpl' = Panic msg ->
        HandlerFuncWithMethods h r (m :: rest) tpl' f = Panic msg)
  /\ (forall tpl' msg m rest,
        compileTemplate tpl' = NotModelled msg ->
        HandlerFuncWithMethods h r (m :: rest) tpl' f = NotModelled msg).
Proof.
  split_and!; cycle 3.
  { intros tpl' msg m rest Hp. cbn [HandlerFuncWithMethods].
    unfold HandlerFunc, HandleRoute, newRoute. by rewrite Hp. }
  - revert h o Hr. induction methods as [|m methods IH]; intros h o Hr.
    + exists h. simpl. rewrite app_nil_r. split_and!; try done.
      rewrite Hr. by destruct o.
    + cbn [HandlerFuncWithMethods]. unfold HandlerFunc, HandleRoute, newRoute.
      rewrite Hc. cbn [mbind result_bind]. rewrite Hr. cbn [mbind result_bind].
      edestruct (IH (setRouter h r
                       (mkObj (o_routes o ++ [mkRoute re m f paramNames tpl])
                              (o_middleware o) (o_subrouters o)
                              (o_NotFoundHandler o) (o_MaxRequestBodySize o))))
        as (h' & -> & Hr' & Hkept & Ha & Hn).
      { simpl. by rewrite lookup_insert_eq. }
      exists h'. split_and!; try done.
      * rewrite Hr'. simpl. by rewrite <- app_assoc.
      * intros c Hne. rewrite Hkept by done. simpl. by rewrite lookup_insert_ne.
  - done.
  - intros tpl' msg m rest Hp. cbn [HandlerFuncWithMethods].
    unfold HandlerFunc, HandleRoute, newRoute. by rewrite Hp.
Qed.

(** GET and POST for /users/:id; the template /users/( , whose pattern lacks
    a closing parenthesis, makes the call panic; the braces of /users/{id}
    are outside the fragment. *)
Lemma HandlerFuncWithMethods_routes_witness :
  (exists h',
      HandlerFuncWithMethods rootHeap 0 ["GET"; "POST"] "/users/:id" (echo "id")
      = Ok h'
      /\ (map method <$> (o_routes <$> routers h' !! 0)) = Some ["GET"; "POST"])
  /\ HandlerFuncWithMethods rootHeap 0 ["GET"; "POST"] "/users/(" (echo "id")
     = Panic "regexp: Compile: error parsing regexp"
  /\ HandlerFuncWithMethods rootHeap 0 [] "/users/(" (echo "id") = Ok rootHeap
  /\ HandlerFuncWithMethods rootHeap 0 ["GET"] "/users/{id}" (echo "id")
     = NotModelled "regexp: syntax outside the fragment".
Proof.
  destruct (HandlerFuncWithMethods_routes ["GET"; "POST"] "/users/:id" (echo "id")
              (compiled "^/users/([-\w.]+)$") ["id"] rootHeap 0
              (mkObj [] emptySlice ∅ NotFound 0%Z) eq_refl eq_refl)
    as ((h' & Hreg & Hr & _) & Hnone & Hpanic & Hout).
  split_and!.
  - exists h'. split; [exact Hreg|]. by rewrite Hr.
  - apply Hpanic. vm_compute. reflexivity.
  - apply Hnone.
  - apply Hout. vm_compute. reflexivity.
Defined.
(** ** More on the heap *)

(** X11. A new child does not get the parent's body limit: its
    [MaxRequestBodySize] is 0, so served on its own it accepts a body of any
    declared length, while the parent keeps its limit. *)
Theorem Subrouter_child_has_no_body_limit
        (grow : nat -> nat -> nat) (h : heap) (p : loc) (key : string)
        (h1 : heap) (c : loc) (o : RouterObj)
        (Hok : heap_ok h) (Hp : routers h !! p = Some o)
        (Hnew : o_subrouters o !! key = None)
        (Hsub : Subrouter grow h p key = Ok (h1, c)) :
  exists oc,
    routers h1 !! c = Some oc
    /\ o_MaxRequestBodySize oc = 0%Z
    /\ (forall req, limitBody (o_MaxRequestBodySize oc) req = Some req)
    /\ (o_MaxRequestBodySize <$> routers h1 !! p) = Some (o_MaxRequestBodySize o).
Proof.
  destruct (Subrouter_spec grow h p key h1 c Hok Hsub)
    as (_ & _ & _ & _ & o0 & Hp0 & Hcase).
  rewrite Hp in Hp0. injection Hp0 as <-.
  destruct Hcase as [[Hold _] | (_ & _ & Hp1 & _ & oc & Hoc & _ & _ & _ & Hmx & _)];
    [congruence|].
  exists oc. split_and!; [done | done | by rewrite Hmx | by rewrite Hp1].
Qed.

Lemma Subrouter_child_has_no_body_limit_witness :
  exists h0 h1 c,
    WithMaxRequestBodySize 1024 0 rootHeap = Ok h0
    /\ Subrouter grow2 h0 0 "/api" = Ok (h1, c)
    /\ (o_MaxRequestBodySize <$> routers h1 !! c) = Some 0%Z
    /\ (o_MaxRequestBodySize <$> routers h1 !! 0) = Some 1024%Z.
Proof.
  pose (h0 := returned rootHeap (WithMaxRequestBodySize 1024 0 rootHeap)).
  pose (hc := returned (h0, 0) (Subrouter grow2 h0 0 "/api")).
  assert (H0 : WithMaxRequestBodySize 1024 0 rootHeap = Ok h0) by reflexivity.
  assert (Hsub : Subrouter grow2 h0 0 "/api" = Ok (hc.1, hc.2)) by reflexivity.
  assert (Hok : heap_ok h0).
  { apply (field_update rootHeap 0 (mkObj [] emptySlice ∅ NotFound 0%Z)
             (mkObj [] emptySlice ∅ NotFound 1024%Z) heap_ok_rootHeap);
      reflexivity. }
  exists h0, hc.1, hc.2. split; [exact H0|]. split; [exact Hsub|].
  destruct (Subrouter_child_has_no_body_limit grow2 h0 0 "/api" hc.1 hc.2
              (mkObj [] emptySlice ∅ NotFound 1024%Z) Hok eq_refl eq_refl Hsub)
    as (oc & Hoc & Hmx & _ & Hparent).
  split; [by rewrite Hoc, <- Hmx | exact Hparent].
Defined.

(** X12. The heaps the API builds stay in order: starting from one in order
    (the empty heap is), [NewRouter], [Use], [Subrouter], [HandleRoute], an
    assignment to [NotFoundHandler] and [WithMaxRequestBodySize] give a heap
    in order again, where no two routers share a backing array and every
    child is a router allocated after its parent; addresses are never
    reused. *)
Theorem api_keeps_heap_in_order
        (grow : nat -> nat -> nat) (h : heap) (Hok : heap_ok h) :
  heap_ok emptyHeap
  /\ (forall h' r, NewRouter h [] = Ok (h', r) ->
                   heap_ok h' /\ routers h !! r = None /\ next h < next h')
  /\ (forall r ch h', apply_change grow h r ch = Ok h' ->
                      heap_ok h' /\ next h <= next h')
  /\ (forall r cs h', apply_changes grow h r cs = Ok h' ->
                      heap_ok h' /\ next h <= next h')
  /\ (forall r size h', WithMaxRequestBodySize size r h = Ok h' ->
                        heap_ok h' /\ next h' = next h)
  /\ (forall r r' o o' l,
        r <> r' -> routers h !! r = Some o -> routers h !! r' = Some o' ->
        ptr (o_middleware o) = Some l -> ptr (o_middleware o') <> Some l)
  /\ (forall r o k c,
        routers h !! r = Some o -> o_subrouters o !! k = Some c ->
        r < c < next h /\ is_Some (routers h !! c)).
Proof.
  split_and!.
  - apply heap_ok_empty.
  - intros h' r Hnew.
    destruct (NewRouter_nil grow h h' r Hok Hnew) as (Hok' & -> & Hfree & _).
    split_and!; [done | done |].
    unfold NewRouter in Hnew. simpl in Hnew. injection Hnew as <-. simpl. lia.
  - intros r ch h' Hch.
    by destruct (apply_change_frame grow h r ch h' Hok Hch) as (? & ? & _).
  - intros r cs h' Hcs.
    by destruct (apply_changes_frame grow cs h r h' Hok Hcs) as (? & ? & _).
  - intros r size h' Hw. unfold WithMaxRequestBodySize in Hw.
    destruct (routers h !! r) as [o|] eqn:Hr; [|done]. injection Hw as <-.
    split; [|done]. by apply (field_update h r o).
  - intros r r' o o' l Hne Hr Hr' Hl.
    destruct (Hok r o Hr) as (_ & _ & Hsh & _). by apply (Hsh r' o' l).
  - intros r o k c Hr Hk. destruct (Hok r o Hr) as (_ & _ & _ & Hch).
    destruct (Hch k c Hk) as [Hlt [oc Hc]].
    destruct (Hok c oc Hc) as (Hc' & _). split; [lia | by exists oc].
Qed.

Lemma api_keeps_heap_in_order_witness :
  heap_ok rootHeap /\ heap_ok heapA.
Proof.
  split; [exact heap_ok_rootHeap|].
  destruct (api_keeps_heap_in_order grow2 rootHeap heap_ok_rootHeap)
    as (_ & _ & Hch & _).
  apply (Hch 0 (DoUse [tag "A"]) heapA). reflexivity.
Defined.

(** X13. [Use] called twice is [Use] called once with both lists, as far as
    the router's middleware list and not-found handler go, whatever arrays
    the two ways leave behind; [Use] without arguments changes neither. *)
Theorem Use_twice_is_Use_once
        (grow : nat -> nat -> nat) (h : heap) (r : loc)
        (a b : list Middleware) (h1 h2 h3 : heap)
        (Hok : heap_ok h)
        (H1 : Use grow h r a = Ok h1) (H2 : Use grow h1 r b = Ok h2)
        (H3 : Use grow h r (a ++ b) = Ok h3) :
  view h2 r = view h3 r
  /\ (forall c, c <> r -> is_Some (routers h !! c) -> view h2 c = view h3 c)
  /\ forall h0, Use grow h r [] = Ok h0 -> view h0 r = view h r.
Proof.
  destruct (Use_spec grow h r a h1 Hok H1)
    as (Hok1 & _ & Hk1 & o & o1 & Hr & Hr1 & He1 & _ & _ & Hn1 & _).
  destruct (Use_spec grow h1 r b h2 Hok1 H2)
    as (_ & _ & Hk2 & o1' & o2 & Hr1' & Hr2 & He2 & _ & _ & Hn2 & _).
  destruct (Use_spec grow h r (a ++ b) h3 Hok H3)
    as (_ & _ & Hk3 & o' & o3 & Hr' & Hr3 & He3 & _ & _ & Hn3 & _).
  simplify_eq. split_and!.
  - unfold view. rewrite Hr2, Hr3. simpl.
    by rewrite He2, He1, He3, Hn2, Hn1, Hn3, app_assoc.
  - intros c Hne Hc.
    rewrite (kept_view h h3 c) by (try done; by apply Hk3).
    apply kept_view; [|done].
    eapply kept_trans; [by apply Hk1 | by apply Hk2].
  - intros h0 H0.
    destruct (Use_spec grow h r [] h0 Hok H0)
      as (_ & _ & _ & o' & o0 & Hr' & Hr0 & He0 & _ & _ & Hn0 & _).
    simplify_eq. unfold view. rewrite Hr, Hr0. simpl.
    by rewrite He0, Hn0, app_nil_r.
Qed.

Lemma Use_twice_is_Use_once_witness :
  Use grow2 rootHeap 0 [tag "A"] = Ok heapA
  /\ Use grow2 heapA 0 [tag "B"] = Ok heapA_B
  /\ view heapA_B 0 = view heapAB 0.
Proof.
  split; [reflexivity|]. split; [reflexivity|].
  destruct (Use_twice_is_Use_once grow2 rootHeap 0 [tag "A"] [tag "B"]
              heapA heapA_B heapAB heap_ok_rootHeap) as [H _];
    [reflexivity | reflexivity | reflexivity | exact H].
Defined.

(** ** Reading a configuration always ends *)




(** ** Plain templates *)

Lemma plain_not_special c :
  plain c = true ->
  ch c "|" = false /\ ch c ")" = false /\ ch c "(" = false /\ ch c "[" = false
  /\ ch c "\" = false /\ is_repeat c = false /\ ch c "{" = false
  /\ ch c "}" = false /\ ch c "]" = false /\ ch c "." = false
  /\ ch c "^" = false /\ ch c "$" = false /\ (code c <? 128) = true.
Proof.
  unfold plain. intros H. apply andb_true_iff in H as [H1 H2].
  apply negb_true_iff in H2. repeat (apply orb_false_iff in H2 as [H2 ?]).
  by split_and!.
Qed.

Lemma postfix_none a s : no_repeat s -> postfix a s = Parsed (a, s).
Proof. destruct s as [|d s]; simpl; [done|]. by intros ->. Qed.

Lemma parse_plain_char fuel c rest g :
  plain c = true -> no_repeat rest ->
  parse (S fuel) ERep (c :: rest) g = Parsed (Char c, rest, g).
Proof.
  intros Hc Hr. destruct (plain_not_special c Hc)
    as (H1 & H2 & H3 & H4 & H5 & H6 & H7 & H8 & H9 & H10 & H11 & H12 & H13).
  cbn [parse]. rewrite H3, H4, H5, H6, H2, H1, H7, H8, H9, H13, H10, H11, H12.
  cbn [orb negb]. by rewrite postfix_none.
Qed.

Lemma parse_group_postfix fuel rest g :
  parse (S (S (S (S fuel)))) ERep (list_ascii_of_string paramGroup ++ rest) g
  = match postfix (groupAt (S g)) rest with
    | Parsed (r, rest') => Parsed (r, rest', S g)
    | Rejected why => Rejected why
    end.
Proof. vm_compute. reflexivity. Qed.

Lemma parse_group fuel rest g :
  no_repeat rest ->
  parse (S (S (S (S fuel)))) ERep (list_ascii_of_string paramGroup ++ rest) g
  = Parsed (groupAt (S g), rest, S g).
Proof.
  intros Hr. by rewrite parse_group_postfix, postfix_none.
Qed.

Lemma parse_plain_char' fuel c rest g :
  0 < fuel -> plain c = true -> no_repeat rest ->
  parse fuel ERep (c :: rest) g = Parsed (Char c, rest, g).
Proof. destruct fuel; [lia|]. intros _. apply parse_plain_char. Qed.

Lemma plain_no_repeat l rest :
  forallb plain l = true -> no_repeat rest -> no_repeat (l ++ rest).
Proof.
  destruct l as [|c l]; [done|]. simpl. intros H _.
  apply andb_true_iff in H as [H _].
  by destruct (plain_not_special c H) as (_ & _ & _ & _ & _ & Hrep & _).
Qed.

Lemma parse_ECat_cons fuel c rest g :
  ch c "|" || ch c ")" = false ->
  parse (S fuel) ECat (c :: rest) g
  = match parse fuel ERep (c :: rest) g with
    | Parsed (a, rest1, g1) =>
        match parse fuel ECat rest1 g1 with
        | Parsed (b, rest2, g2) => Parsed (Cat a b, rest2, g2)
        | Rejected why => Rejected why
        end
    | Rejected why => Rejected why
    end.
Proof.
  intros H. cbn [parse]. rewrite H.
  destruct (parse fuel ERep (c :: rest) g) as [[[a rest1] g1]|]; [|done].
  cbn [mbind parsed_bind].
  by destruct (parse fuel ECat rest1 g1) as [[[b rest2] g2]|].
Qed.

(** Literal text parses to the chain of its characters, before whatever the
    rest of the pattern parses to. *)
Lemma parse_lits l : forall fuel rest g b r2 g2,
  forallb plain l = true -> no_repeat rest ->
  parse (S fuel) ECat rest g = Parsed (b, r2, g2) ->
  parse (length l + S fuel) ECat (l ++ rest) g = Parsed (lits l b, r2, g2).
Proof.
  induction l as [|c l IH]; intros fuel rest g b r2 g2 Hl Hr Hb; [done|].
  simpl in Hl. apply andb_true_iff in Hl as [Hc Hl].
  destruct (plain_not_special c Hc) as (H1 & H2 & _).
  cbn [length Nat.add app]. rewrite parse_ECat_cons by (by rewrite H1, H2).
  rewrite parse_plain_char' by first [done | lia | by apply plain_no_repeat].
  by rewrite (IH fuel rest g b r2 g2).
Qed.

Lemma parse_end fuel g :
  parse (S (S (S fuel))) ECat ["$"%char] g = Parsed (Cat End Empty, [], g).
Proof. vm_compute. reflexivity. Qed.

Lemma plain_segments_head n l rest :
  plain_segments ((n, l) :: rest) = true ->
  forallb plain l = true /\ plain_segments rest = true
  /\ no_repeat (l ++ render (fun _ => list_ascii_of_string paramGroup) rest
                  ++ ["$"%char]).
Proof.
  simpl. intros H. apply andb_true_iff in H as [H Hrest].
  apply andb_true_iff in H as [Hl Hhead]. split_and!; try done.
  destruct l as [|d l].
  - apply bool_decide_eq_true in Hhead. by subst rest.
  - simpl in Hl. apply andb_true_iff in Hl as [Hd _].
    by destruct (plain_not_special d Hd) as (_ & _ & _ & _ & _ & Hrep & _).
Qed.

(** The text of a plain reading after [^] parses to its program. *)
Lemma parse_segments segs : forall g l fuel,
  forallb plain l = true -> plain_segments segs = true ->
  length l + length (render (fun _ => list_ascii_of_string paramGroup) segs) + 6
  <= fuel ->
  parse fuel ECat
        (l ++ render (fun _ => list_ascii_of_string paramGroup) segs ++ ["$"%char]) g
  = Parsed (lits l (segments_regex g segs), [], g + length segs).
Proof.
  induction segs as [|[n l1] segs IH]; intros g l fuel Hl Hsegs Hfuel.
  - simpl in *. replace fuel with (length l + S (S (S (S (fuel - length l - 4)))))
      by lia.
    rewrite (parse_lits l _ ["$"%char] g (Cat End Empty) [] g)
      by first [done | apply parse_end].
    by rewrite Nat.add_0_r.
  - destruct (plain_segments_head n l1 segs Hsegs) as (Hl1 & Hrest & Hnr).
    cbn [render]. rewrite <- !app_assoc.
    cbn [render length] in Hfuel. rewrite !length_app in Hfuel.
    change (length (list_ascii_of_string paramGroup)) with 9 in Hfuel.
    replace fuel with (length l + S (S (S (S (S (fuel - length l - 5))))))
      by lia.
    erewrite (parse_lits l); [| done | done |].
    + cbn [length segments_regex]. rewrite Nat.add_succ_r. reflexivity.
    + change (list_ascii_of_string paramGroup ++ ?x)
        with ("("%char :: (list_ascii_of_string "[-\w.]+)" ++ x)).
      rewrite parse_ECat_cons by done.
      change ("("%char :: (list_ascii_of_string "[-\w.]+)" ++ ?x))
        with (list_ascii_of_string paramGroup ++ x).
      rewrite parse_group by done.
      by rewrite (IH (S g) l1) by (try done; lia).
Qed.

Lemma list_ascii_of_string_app a b :
  list_ascii_of_string (a +:+ b) = list_ascii_of_string a ++ list_ascii_of_string b.
Proof.
  induction a as [|c a IH]; [done|].
  change (String c a +:+ b) with (String c (a +:+ b)). simpl. by f_equal.
Qed.

Lemma parse_begin fuel rest g :
  parse (S fuel) ERep ("^"%char :: rest) g
  = match postfix Begin rest with
    | Parsed (r, rest') => Parsed (r, rest', g)
    | Rejected why => Rejected why
    end.
Proof. vm_compute. reflexivity. Qed.

Lemma parse_EAlt_done fuel s g a g1 :
  parse fuel ECat s g = Parsed (a, [], g1) ->
  parse (S fuel) EAlt s g = Parsed (a, [], g1).
Proof. intros H. cbn [parse]. by rewrite H. Qed.

Lemma reading_no_repeat t :
  forallb plain t.1 = true -> plain_segments t.2 = true ->
  no_repeat (patternText t ++ ["$"%char]).
Proof.
  destruct t as [l segs]. unfold patternText. simpl. intros Hl Hsegs.
  rewrite <- app_assoc. apply plain_no_repeat; [done|].
  by destruct segs as [|[n l1] segs].
Qed.

(** A plain reading compiles, to the program [reading_regex] with one group
    for each token. *)
Lemma Compile_reading t :
  forallb plain t.1 = true -> plain_segments t.2 = true ->
  Compile ("^" +:+ string_of_list_ascii (patternText t) +:+ "$")
  = Parsed (mkRegexp (reading_regex t) (length t.2)
                     ("^" +:+ string_of_list_ascii (patternText t) +:+ "$")).
Proof.
  intros Hl Hsegs. unfold Compile.
  rewrite !list_ascii_of_string_app, list_ascii_of_string_of_list_ascii.
  change (list_ascii_of_string "^" ++ ?x) with ("^"%char :: x).
  change (list_ascii_of_string "$") with ["$"%char].
  cbn [length]. rewrite length_app. cbn [length].
  replace (3 * S (length (patternText t) + 1) + 4)
    with (S (S (S (length (patternText t) + 6 + (2 * length (patternText t) + 1)))))
    by lia.
  erewrite parse_EAlt_done; [reflexivity|].
  rewrite parse_ECat_cons by done.
  rewrite parse_begin, postfix_none by (by apply reading_no_repeat).
  unfold patternText in *. rewrite <- app_assoc.
  rewrite parse_segments; [done | done | done |].
  rewrite length_app. lia.
Qed.

(** *** What the program of a plain reading matches *)

Lemma run_lits l b : forall pos s c k,
  run (lits l b) pos s c k
  = match strip l s with
    | Some s' => run b (pos + length l) s' c k
    | None => None
    end.
Proof.
  induction l as [|x l IH]; intros pos s c k; simpl.
  - by rewrite Nat.add_0_r.
  - destruct s as [|d s]; [done|]. destruct (Ascii.eqb d x); [|done].
    rewrite IH. by rewrite Nat.add_succ_r.
Qed.

Lemma strip_Some l s s' : strip l s = Some s' <-> s = l ++ s'.
Proof.
  revert s. induction l as [|x l IH]; intros s; simpl.
  - split; [by intros [= ->] | by intros ->].
  - destruct s as [|d s]; [done|].
    destruct (Ascii.eqb_spec d x) as [->|Hne].
    + rewrite IH. split; [by intros -> | by intros [= ->]].
    + split; [done | by intros [= -> _]].
Qed.

Lemma span_value_spec s :
  s = (span_value s).1 ++ (span_value s).2
  /\ forallb is_value (span_value s).1 = true
  /\ match (span_value s).2 with
     | d :: _ => is_value d = false
     | [] => True
     end.
Proof.
  induction s as [|c t (IH1 & IH2 & IH3)]; [done|].
  cbn [span_value]. destruct (is_value c) eqn:Hc.
  - destruct (span_value t) as [v r]. simpl in *. split_and!; try done.
    + by f_equal.
    + by rewrite Hc.
  - by simpl.
Qed.

Lemma span_value_app v r :
  forallb is_value v = true ->
  match r with d :: _ => is_value d = false | [] => True end ->
  span_value (v ++ r) = (v, r).
Proof.
  intros Hv Hr. induction v as [|c v IH]; cbn [app span_value forallb] in *.
  - destruct r as [|d r]; [done|]. cbn [span_value]. by rewrite Hr.
  - apply andb_true_iff in Hv as [Hc Hv]. by rewrite Hc, IH.
Qed.

(** A greedy repetition of a class stops at the end of the run of its
    characters when the rest of the pattern refuses to start within it. *)
Lemma iterate_stop neg items n : forall fuel pos t c K,
  forallb (in_class neg items) n = true ->
  match t with d :: _ => in_class neg items d = false | [] => True end ->
  length n <= fuel ->
  (forall pos' d s' c', in_class neg items d = true -> K pos' (d :: s') c' = None) ->
  iterate (run (Class neg items)) fuel pos (n ++ t) c K = K (pos + length n) t c.
Proof.
  induction n as [|x n IH]; intros fuel pos t c K Hn Ht Hf HK; simpl in *.
  - rewrite Nat.add_0_r. destruct fuel as [|fuel]; simpl; [done|].
    destruct t as [|d t]; [done|]. by rewrite Ht.
  - apply andb_true_iff in Hn as [Hx Hn].
    destruct fuel as [|fuel]; [lia|]. simpl. rewrite Hx.
    rewrite (IH fuel (S pos) t c K) by (try done; lia).
    rewrite Nat.add_succ_r. simpl.
    destruct (K (S (pos + length n)) t c); [done|]. by rewrite HK.
Qed.

Lemma run_group i b pos s c k :
  rejects b k ->
  run (Cat (groupAt i) b) pos s c k
  = match span_value s with
    | ([], _) => None
    | (v, s1) => run b (pos + length v) s1 (<[i := Some (pos, pos + length v)]> c) k
    end.
Proof.
  intros Hb. unfold groupAt. cbn [run].
  destruct s as [|x s]; [done|]. cbn [span_value]. rewrite in_class_value.
  destruct (is_value x) eqn:Hx; [|done].
  destruct (span_value_spec s) as (Hs & Hv & Hr).
  destruct (span_value s) as [v s1]. simpl in Hs, Hv, Hr. subst s.
  rewrite (iterate_stop false [CChar "-"; CWord; CChar "."] v).
  - cbn [length]. by rewrite Nat.add_succ_r.
  - by rewrite (forallb_eq _ is_value v in_class_value).
  - destruct s1 as [|d s1]; [done|]. by rewrite in_class_value.
  - rewrite length_app. lia.
  - intros pos' d s' c' Hd. rewrite in_class_value in Hd. by apply Hb.
Qed.

Lemma rejects_after_token l rest i k :
  match l with
  | d :: _ => is_value d = false
  | [] => rest = []
  end ->
  rejects (lits l (segments_regex i rest)) k.
Proof.
  intros Hl pos d s c Hd. destruct l as [|x l].
  - by subst rest.
  - simpl. destruct (Ascii.eqb_spec d x) as [->|]; [congruence | done].
Qed.

Lemma plain_segments_cons n l rest :
  plain_segments ((n, l) :: rest) = true ->
  match l with d :: _ => is_value d = false | [] => rest = [] end
  /\ plain_segments rest = true.
Proof.
  simpl. intros H. apply andb_true_iff in H as [H Hrest].
  apply andb_true_iff in H as [_ Hhead]. split; [|done].
  destruct l as [|d l]; [by apply bool_decide_eq_true in Hhead|].
  by apply negb_true_iff in Hhead.
Qed.

Lemma run_segments segs : forall i pos s pre,
  plain_segments segs = true -> length pre = S i ->
  run (segments_regex i segs) pos s (pre ++ replicate (length segs) None)
      (fun pos' _ c' => Some (<[0 := Some (0, pos')]> c'))
  = (bs ← bounds segs pos s;
     Some (<[0 := Some (0, pos + length s)]> (pre ++ (Some <$> bs)))).
Proof.
  induction segs as [|[n l] rest IH]; intros i pos s pre Hplain Hpre.
  - cbn [segments_regex run bounds]. destruct s as [|d s]; [|done].
    simpl. by rewrite Nat.add_0_r.
  - destruct (plain_segments_cons n l rest Hplain) as [Hhead Hrest].
    cbn [segments_regex bounds].
    rewrite run_group by (by apply rejects_after_token).
    destruct (span_value_spec s) as (Hs & _ & _).
    destruct (span_value s) as [[|x v] s1]; [done|]. simpl in Hs.
    rewrite run_lits. destruct (strip l s1) as [s2|] eqn:Hstrip; [|done].
    apply strip_Some in Hstrip. cbn [mbind option_bind].
    cbn [length replicate]. rewrite insert_app_r_alt by lia.
    rewrite Hpre, Nat.sub_diag. cbn [insert list_insert].
    rewrite (cons_middle _ pre), app_assoc.
    rewrite (IH (S i)) by (try done; rewrite length_app; simpl; lia).
    destruct (bounds rest _ s2) as [bs|]; [|done]. cbn [mbind option_bind].
    replace (pos + S (length v) + length l + length s2) with (pos + length s)
      by (subst s s1; simpl; rewrite !length_app; simpl; lia).
    by rewrite fmap_cons, <- app_assoc.
Qed.

Lemma bounds_values segs : forall pos s p,
  drop pos p = s ->
  (map (fun ab : nat * nat => Regexp.slice ab.1 ab.2 p) <$> bounds segs pos s)
  = values segs s.
Proof.
  induction segs as [|[n l] rest IH]; intros pos s p Hdrop.
  - by destruct s.
  - cbn [bounds values]. destruct (span_value_spec s) as (Hs & _ & _).
    destruct (span_value s) as [[|x v] s1]; [done|]. simpl in Hs.
    destruct (strip l s1) as [s2|] eqn:Hstrip; [|done].
    apply strip_Some in Hstrip. cbn [mbind option_bind].
    rewrite <- (IH (pos + length (x :: v) + length l) s2 p).
    + destruct (bounds rest _ s2) as [bs|]; [|done]. simpl. do 2 f_equal.
      unfold Regexp.slice. rewrite Hdrop, Hs.
      replace (pos + S (length v) - pos) with (length (x :: v)) by (simpl; lia).
      apply (take_app_length (x :: v)).
    + rewrite <- Nat.add_assoc, <- drop_drop, Hdrop, Hs, Hstrip.
      change (x :: v ++ l ++ s2) with ((x :: v) ++ l ++ s2).
      rewrite app_assoc, <- length_app. apply drop_app_length.
Qed.

Lemma find_from_anchored re b s :
  prog re = Cat Begin b -> find_from re 0 s = match_at re 0 s.
Proof.
  intros Hre.
  assert (H : forall pos t, 0 < pos -> match_at re pos t = None).
  { intros [|pos] t Hp; [lia|]. unfold match_at. by rewrite Hre. }
  assert (Hlater : forall t pos, 0 < pos -> find_from re pos t = None).
  { induction t as [|x t IH]; intros pos Hp; cbn [find_from];
      rewrite H by done; [done|]. apply IH. lia. }
  destruct s as [|x s]; cbn [find_from]; destruct (match_at re 0 _); try done.
  apply Hlater. lia.
Qed.

(** The program of a plain reading finds, in a path, the values of the
    tokens, or nothing. *)
Lemma FindStringSubmatch_reading t src p :
  plain_segments t.2 = true ->
  FindStringSubmatch (mkRegexp (reading_regex t) (length t.2) src) p
  = (vs ← path_values t (list_ascii_of_string p);
     Some (p :: (string_of_list_ascii <$> vs))).
Proof.
  intros Hplain. unfold FindStringSubmatch, path_values.
  rewrite (find_from_anchored _ (lits t.1 (segments_regex 0 t.2))) by done.
  unfold match_at, reading_regex. cbn [prog NumSubexp run].
  change (0 =? 0) with true. cbn iota. rewrite run_lits.
  destruct (strip t.1 (list_ascii_of_string p)) as [s|] eqn:Hstrip; [|done].
  apply strip_Some in Hstrip. cbn [mbind option_bind].
  change (replicate (S (length t.2)) None)
    with ([None] ++ replicate (length t.2) (@None (nat * nat))).
  rewrite (run_segments t.2 0) by done.
  change (0 + length t.1) with (length t.1).
  rewrite <- (bounds_values t.2 (length t.1) s (list_ascii_of_string p))
    by (by rewrite Hstrip, drop_app_length).
  destruct (bounds t.2 _ s) as [bs|]; [|done]. simpl.
  f_equal. f_equal.
  - unfold Regexp.slice. rewrite Nat.sub_0_r, drop_0.
    replace (length t.1 + length s) with (length (list_ascii_of_string p))
      by (by rewrite Hstrip, length_app).
    by rewrite firstn_all, string_of_list_ascii_of_string.
  - clear. induction bs as [|[a b] bs IH]; simpl; [done | by f_equal].
Qed.

Lemma values_iff segs : plain_segments segs = true -> forall s vs,
  values segs s = Some vs
  <-> length vs = length segs
      /\ Forall (fun v => v <> [] /\ forallb is_value v = true) vs
      /\ s = instantiate segs vs.
Proof.
  induction segs as [|[n l] rest IH]; intros Hplain s vs.
  - simpl. split.
    + destruct s; [|done]. by intros [= <-].
    + intros (Hlen & _ & ->). by destruct vs.
  - destruct (plain_segments_cons n l rest Hplain) as [Hhead Hrest].
    cbn [values]. split.
    + destruct (span_value_spec s) as (Hs & Hv & _).
      destruct (span_value s) as [[|x v] s1]; [done|]. simpl in Hs, Hv.
      destruct (strip l s1) as [s2|] eqn:Hstrip; [|done].
      apply strip_Some in Hstrip. cbn [mbind option_bind].
      destruct (values rest s2) as [vs'|] eqn:Hvs; [|done].
      intros [= <-]. apply (IH Hrest) in Hvs as (Hlen & Hall & ->).
      split_and!; [simpl; by rewrite Hlen | by constructor | by subst].
    + intros (Hlen & Hall & ->). destruct vs as [|v vs']; [done|].
      apply Forall_cons in Hall as [[Hne Hv] Hall]. cbn [instantiate].
      rewrite span_value_app; [| done |].
      * destruct v as [|x v]; [done|].
        rewrite (proj2 (strip_Some l _ (instantiate rest vs')) eq_refl).
        cbn [mbind option_bind].
        rewrite (proj2 (IH Hrest (instantiate rest vs') vs')); [done|].
        split_and!; [simpl in Hlen; lia | done | done].
      * destruct l as [|d l]; [|done]. subst rest. by destruct vs'.
Qed.

(** ** Routes of plain templates *)






(** Literal text is pattern text.  The pattern of the template /a|/b is an
    alternation, whose first branch is not tied to the end of the path: the
    route matches /a/x/y/z.  The group of /a/:id? is optional: on /a/ it
    takes no part in the match, and [id] is bound to the empty string. *)
Lemma template_not_anchored :
  newRoute "GET" "/a|/b" (say "a or b")
  = Ok (mkRoute (compiled "^/a|/b$") "GET" (say "a or b") [] "/a|/b")
  /\ Route_match (mkRoute (compiled "^/a|/b$") "GET" (say "a or b") [] "/a|/b")
                 "/a/x/y/z" = Ok (Some ∅)
  /\ newRoute "GET" "/a/:id?" (echo "id")
     = Ok (mkRoute (compiled "^/a/([-\w.]+)?$") "GET" (echo "id") ["id"] "/a/:id?")
  /\ Route_match (mkRoute (compiled "^/a/([-\w.]+)?$") "GET" (echo "id") ["id"]
                          "/a/:id?") "/a/"
     = Ok (Some {["id" := ""]})
  /\ outcome (ServeHTTP
                (mkRouter [mkRoute (compiled "^/a|/b$") "GET" (say "a or b") []
                                   "/a|/b"] [] [] NotFound 0)
                NewRecorder (get "/a/x/y/z"))
     = Some (200%Z, "a or b").
Proof. split_and!; vm_compute; reflexivity. Qed.



(** A route with a name and no group: its pattern matches /hello, and
    [match] neither returns a map nor nil there, it panics, and dispatch
    with it. *)
Lemma match_panics_where_pattern_matches :
  FindStringSubmatch (path brokenRoute) "/hello" = Some ["/hello"]
  /\ params brokenRoute = ["id"]
  /\ NumSubexp (path brokenRoute) = 0
  /\ Route_match brokenRoute "/hello" = Panic "runtime error: index out of range"
  /\ ServeHTTP (mkRouter [brokenRoute] [] [] NotFound 0) NewRecorder (get "/hello")
     = Panic "runtime error: index out of range".
Proof. split_and!; vm_compute; reflexivity. Qed.

(** X15. Plain templates.  For a template of plain literal text and tokens,
    where the text after a token starts with a character no value holds (a
    slash, say) and only the last token may end the template, [HandleRoute]
    compiles a pattern with one group for each token, and the route matches
    exactly the paths got from the template by putting a non-empty string of
    word characters, hyphens and dots in the place of each token: [match]
    binds each name to the string in its place, and returns nil for every
    other path, so no parameter is ever empty or holds a slash. *)
Theorem plain_template_matches
        (t : list ascii * list segment) (Hplain : plain_reading t = true) :
  exists re,
    compileTemplate (string_of_list_ascii (templateText t)) = Ok (re, names t)
    /\ NumSubexp re = length (names t)
    /\ (forall m h,
          newRoute m (string_of_list_ascii (templateText t)) h
          = Ok (mkRoute re m h (names t) (string_of_list_ascii (templateText t))))
    /\ (forall m h tpl p,
          Route_match (mkRoute re m h (names t) tpl) p
          = Ok ((fun vs => zipped (names t) (p :: (string_of_list_ascii <$> vs)))
                  <$> path_values t (list_ascii_of_string p)))
    /\ (forall p vs,
          path_values t p = Some vs
          <-> length vs = length t.2
              /\ Forall (fun v => v <> [] /\ forallb is_value v = true) vs
              /\ p = t.1 ++ instantiate t.2 vs).
Proof.
  unfold plain_reading in Hplain.
  apply andb_true_iff in Hplain as [Hplain Hsegs].
  apply andb_true_iff in Hplain as [Hwf Hlit].
  assert (Hiff : forall p vs,
             path_values t p = Some vs
             <-> length vs = length t.2
                 /\ Forall (fun v => v <> [] /\ forallb is_value v = true) vs
                 /\ p = t.1 ++ instantiate t.2 vs).
  { intros p vs. unfold path_values. split.
    - destruct (strip t.1 p) as [s|] eqn:Hstrip; [|done].
      apply strip_Some in Hstrip. cbn [mbind option_bind].
      intros H. apply (values_iff _ Hsegs) in H as (? & ? & ->). by subst.
    - intros (Hlen & Hall & ->).
      rewrite (proj2 (strip_Some t.1 _ (instantiate t.2 vs)) eq_refl).
      cbn [mbind option_bind]. by apply (values_iff _ Hsegs). }
  eexists. split_and!.
  - rewrite compileTemplate_reading by done. unfold MustCompile.
    by rewrite Compile_reading.
  - unfold names. simpl. by rewrite length_map.
  - intros m h. unfold newRoute. rewrite compileTemplate_reading by done.
    unfold MustCompile. by rewrite Compile_reading.
  - intros m h tpl p. unfold Route_match. cbn [path params].
    rewrite FindStringSubmatch_reading by done.
    destruct (path_values t (list_ascii_of_string p)) as [vs|] eqn:Hvs; [|done].
    apply Hiff in Hvs as (Hlen & _). cbn [mbind option_bind].
    rewrite fill_zip by (unfold names; simpl; rewrite length_map, length_fmap; lia).
    done.
  - exact Hiff.
Qed.

Lemma plain_template_matches_witness :
  plain_reading helloReading = true
  /\ exists re,
      compileTemplate "/hello/:name/:last" = Ok (re, ["name"; "last"])
      /\ Route_match (mkRoute re "GET" (echo "name") ["name"; "last"]
                              "/hello/:name/:last") "/hello/ada/lovelace"
         = Ok (Some {["name" := "ada"; "last" := "lovelace"]}).
Proof.
  split; [reflexivity|].
  destruct (plain_template_matches helloReading eq_refl)
    as (re & Hc & _ & _ & Hm & _).
  exists re. split; [exact Hc|].
  etransitivity; [apply (Hm "GET" (echo "name") "/hello/:name/:last")|].
  vm_compute. reflexivity.
Defined.

(** ** Children of children *)

Lemma HasPrefix_append k x : Strings.HasPrefix (k +:+ x) k = true.
Proof.
  unfold Strings.HasPrefix. induction k as [|c k IH]; [by destruct x|].
  change (String c k +:+ x) with (String c (k +:+ x)). simpl.
  by destruct (ascii_dec c c).
Qed.

Lemma TrimPrefix_append k x : Strings.TrimPrefix (k +:+ x) k = x.
Proof.
  unfold Strings.TrimPrefix. rewrite HasPrefix_append.
  induction k as [|c k IH]; [done|].
  change (String c k +:+ x) with (String c (k +:+ x)). done.
Qed.

Lemma claims_prefix k x req :
  k <> Host (url req) -> Path (url req) = k +:+ x ->
  claims k req = Some (setPath req x).
Proof.
  intros Hhost Hpath. unfold claims.
  rewrite (proj2 (String.eqb_neq _ _) Hhost), Hpath.
  by rewrite HasPrefix_append, TrimPrefix_append.
Qed.

(** X16. Prefixes are stripped in turn down the tree: a request whose path is
    [k1 ++ k2 ++ rest], sent to a router whose child under [k1] has a child
    under [k2], is served by that grandchild with the path [rest], method,
    host, body and context as they came, none of the routes, middleware or
    not-found handlers on the way taking part. *)
Theorem nested_prefixes_strip_in_turn
        (k1 k2 rest : string) (c : Router)
        (rs1 rs2 : list Route) (mw1 mw2 : list Middleware) (nf1 nf2 : Handler)
        (w : ResponseWriter) (req : Request)
        (Hpath : Path (url req) = k1 +:+ k2 +:+ rest)
        (Hhost1 : k1 <> Host (url req)) (Hhost2 : k2 <> Host (url req)) :
  ServeHTTP (mkRouter rs1 mw1 [(k1, mkRouter rs2 mw2 [(k2, c)] nf2 0)] nf1 0) w req
  = ServeHTTP c w (setPath req rest)
  /\ Method (setPath req rest) = Method req
  /\ Host (url (setPath req rest)) = Host (url req)
  /\ Body (setPath req rest) = Body req
  /\ ctx (setPath req rest) = ctx req.
Proof.
  split; [|done].
  assert (H : forall rs mw k sub nf req0 x,
             k <> Host (url req0) -> Path (url req0) = k +:+ x ->
             ServeHTTP (mkRouter rs mw [(k, sub)] nf 0) w req0
             = ServeHTTP sub w (setPath req0 x)).
  { intros rs mw k sub nf req0 x Hh Hp. rewrite ServeHTTP_unfold.
    change (limitBody _ req0) with (Some req0). cbn [subrouters probe].
    by rewrite (claims_prefix k x req0). }
  rewrite (H rs1 mw1 k1 _ nf1 req (k2 +:+ rest)) by done.
  by rewrite (H rs2 mw2 k2 c nf2 _ rest).
Qed.

Lemma nested_prefixes_strip_in_turn_witness :
  outcome (ServeHTTP
             (mkRouter [] [] [("/api", mkRouter [] [] [("/v1", apiChild)] NotFound 0)]
                       NotFound 0)
             NewRecorder (get "/api/v1/users/7"))
  = Some (200%Z, "7").
Proof.
  destruct (nested_prefixes_strip_in_turn "/api" "/v1" "/users/7" apiChild
              [] [] [] [] NotFound NotFound NewRecorder (get "/api/v1/users/7"))
    as [-> _]; [reflexivity | discriminate | discriminate |].
  vm_compute. reflexivity.
Defined.

(** ** The recovery handler *)

(*X17*)

End Properties.
